(** * make_class_power: the MP-GenIC front end of the CLASS Boltzmann solver

    A shallow embedding of [tools/make_class_power.py] and the properties of
    its configuration check, its cosmology-parameter mapping and its guarded
    output writes.

    Python floats are IEEE 754 binary64 numbers: they are modelled by Rocq's
    primitive floats, whose operations are the same correctly rounded
    operations, and decimal literals are read with the same rounding.
    The script is modelled with the semantics of Python 3.

    The disk is a map from files to what they hold.  Which file a path names
    (the working directory, [.] and [..], links) and whether a file can be
    created at a path (its directory exists and can be written) are taken from
    the operating system: both are parameters of the development. *)

From Stdlib Require Import ZArith Floats String Ascii List Bool Lia.
From stdpp Require Import base option list gmap strings fin_maps.

Set Warnings "-inexact-float,-register-all,-clear-no-such-hyp".
Local Open Scope string_scope.

(** ** Exceptions and the two effect layers *)

(** The exceptions the script can end with, by class.  [IOError] carries the
    argument tuple it is raised with. *)
Inductive exn : Type :=
| IOError (args : list string)
| ValueError (msg : string)
| KeyError (key : string)
| NameError (name : string)
| TypeError
| ZeroDivisionError
| OverflowError
| IndexError
| ConfigObjError
| SolverError (msg : string).

(** Pure code that may raise. *)
Inductive result (A : Type) : Type :=
| Ok (a : A)
| Raise (e : exn).
Arguments Ok {A} a.
Arguments Raise {A} e.

#[global] Instance result_ret : MRet result := fun A a => Ok a.
#[global] Instance result_bind : MBind result := fun A B f m =>
  match m with
  | Ok a => f a
  | Raise e => Raise e
  end.

Definition is_ok {A} (r : result A) : bool :=
  match r with Ok _ => true | Raise _ => false end.

(** ** Python values *)

(** The values that live in the configuration and in the parameter mapping
    handed to the solver. *)
Inductive value : Type :=
| VStr (s : string)
| VInt (n : Z)
| VFloat (f : float)
| VArr (xs : list value)
| VTuple (xs : list value).

(** [float(n)] for a Python int: round to nearest even, [OverflowError] when
    the int is too large for a double. *)
Definition float_of_int (n : Z) : result float :=
  let f := SF2Prim (binary_normalize prec emax n 0 false) in
  if is_infinity f then Raise OverflowError else Ok f.

(** The operand of a float operation or comparison.  A str operand makes the
    operation raise [TypeError]; an int operand is converted. *)
Definition as_float (v : value) : result float :=
  match v with
  | VFloat f => Ok f
  | VInt n => float_of_int n
  | _ => Raise TypeError
  end.

(** [a / b] on floats: Python raises on a zero divisor instead of returning
    an infinity or a NaN. *)
Definition py_truediv (a b : float) : result float :=
  if (b =? 0)%float then Raise ZeroDivisionError else Ok (a / b)%float.

(** [v < c], [v > c], [v >= c] against a numeric literal. *)
Definition py_lt (v : value) (c : float) : result bool :=
  x ← as_float v; mret (x <? c)%float.
Definition py_gt (v : value) (c : float) : result bool :=
  x ← as_float v; mret (c <? x)%float.
Definition py_ge (v : value) (c : float) : result bool :=
  x ← as_float v; mret (c <=? x)%float.

(** [v == 1.]: equality never raises; a str is never equal to a number. *)
Definition py_eq_one (v : value) : bool :=
  match v with
  | VInt n => (n =? 1)%Z
  | VFloat f => (f =? 1)%float
  | _ => false
  end.

(** [v == '']. *)
Definition py_eq_empty (v : value) : bool :=
  match v with
  | VStr s => if decide (s = "") then true else false
  | _ => false
  end.

(** [math.pi]. *)
Definition math_pi : float := 0x1.921fb54442d18p+1%float.

(** [np.max] of a one-dimensional array: the largest element, a NaN when one
    is present. *)
Definition np_maximum (a b : float) : float :=
  if is_nan a then a else if is_nan b then b
  else if (a <? b)%float then b else a.
Definition np_max (xs : list value) : result float :=
  fs ← mapM as_float xs;
  match fs with
  | [] => Raise (ValueError "zero-size array to reduction operation maximum which has no identity")
  | f :: fs' => Ok (foldl np_maximum f fs')
  end.

(** ** Paths ([os.path] on POSIX) *)

Definition slash : ascii := "/"%char.
Definition is_slash (c : ascii) : bool := if decide (c = slash) then true else false.

Fixpoint drop_while (p : ascii -> bool) (l : list ascii) : list ascii :=
  match l with
  | [] => []
  | c :: l' => if p c then drop_while p l' else l
  end.

(** [os.path.split(p)[0]]: everything up to the last slash, with trailing
    slashes removed unless the head consists of slashes only. *)
Definition os_path_dirname (p : string) : string :=
  let head_rev := drop_while (fun c => negb (is_slash c)) (rev (list_ascii_of_string p)) in
  let head_rev' :=
    if forallb is_slash head_rev then head_rev else drop_while is_slash head_rev in
  string_of_list_ascii (rev head_rev').

Definition starts_with_slash (b : string) : bool :=
  match b with
  | String c _ => is_slash c
  | EmptyString => false
  end.

Definition ends_with_slash (a : string) : bool :=
  match rev (list_ascii_of_string a) with
  | c :: _ => is_slash c
  | [] => false
  end.

(** [os.path.join(a, b)]. *)
Definition os_path_join (a b : string) : string :=
  if starts_with_slash b then b
  else if decide (a = "") then b
  else if ends_with_slash a then a ++ b
  else a ++ "/" ++ b.

(** The message of [configobj] for a file that is not there:
    [Config file not found: "<name>".] *)
Definition double_quote : string := String (ascii_of_nat 34) EmptyString.
Definition not_found_message (paramfile : string) : string :=
  "Config file not found: " ++ double_quote ++ paramfile ++ double_quote ++ ".".

(** A path argument must be a str. *)
Definition as_str (v : value) : result string :=
  match v with
  | VStr s => Ok s
  | _ => Raise TypeError
  end.

(** ** The configuration schema *)

(** One line of the configspec: the check function with its bounds and its
    default. *)
Inductive check : Type :=
| string_check (default : option string)
| integer_check (vmin vmax : option Z) (default : option Z)
| float_check (vmin vmax : option float) (default : option float).

Definition GenICconfigspec : list (string * check) :=
  [ ("FileWithInputSpectrum", string_check (Some ""));
    ("FileWithTransferFunction", string_check (Some ""));
    ("Ngrid", integer_check (Some 0%Z) None None);
    ("BoxSize", float_check (Some 0%float) None None);
    ("Omega0", float_check (Some 0%float) (Some 1%float) None);
    ("OmegaLambda", float_check (Some 0%float) (Some 1%float) None);
    ("OmegaBaryon", float_check (Some 0%float) (Some 1%float) (Some 0.0486%float));
    ("HubbleParam", float_check (Some 0%float) (Some 2%float) None);
    ("Redshift", float_check (Some 0%float) (Some 1100%float) None);
    ("Sigma8", float_check None None (Some (-1)%float));
    ("InputPowerRedshift", float_check None None (Some (-1)%float));
    ("DifferentTransferFunctions", integer_check (Some 0%Z) (Some 1%Z) (Some 1%Z));
    ("UnitLength_in_cm", float_check None None (Some 3.085678e21%float));
    ("Omega_fld", float_check (Some 0%float) (Some 1%float) (Some 0%float));
    ("w0_fld", float_check None None (Some (-1)%float));
    ("wa_fld", float_check None None (Some 0%float));
    ("MNue", float_check (Some 0%float) None (Some 0%float));
    ("MNum", float_check (Some 0%float) None (Some 0%float));
    ("MNut", float_check (Some 0%float) None (Some 0%float));
    ("MWDM_Therm", float_check (Some 0%float) None (Some 0%float));
    ("PrimordialIndex", float_check None None (Some 0.971%float));
    ("PrimordialAmp", float_check None None (Some 2.215e-9%float));
    ("CMBTemperature", float_check None None (Some 2.7255%float)) ].

Definition default_value (chk : check) : option value :=
  match chk with
  | string_check d => VStr <$> d
  | integer_check _ _ d => VInt <$> d
  | float_check _ _ d => VFloat <$> d
  end.

(** The range tests of the check functions: a value is refused when it is
    below the minimum or above the maximum. *)
Definition int_in_range (vmin vmax : option Z) (n : Z) : bool :=
  negb (from_option (fun lo => (n <? lo)%Z) false vmin)
  && negb (from_option (fun hi => (hi <? n)%Z) false vmax).
Definition float_in_range (vmin vmax : option float) (f : float) : bool :=
  negb (from_option (fun lo => (f <? lo)%float) false vmin)
  && negb (from_option (fun hi => (hi <? f)%float) false vmax).

(** ** The solver and the rest of the runtime *)

(** A transfer-function table: the wavenumber column ['k'] and the other
    columns. *)
Record transfer : Type := Transfer {
  tr_k : list float;
  tr_columns : list (list float)
}.

(** [CLASS.Spectra]: the two queries the script makes. *)
Record Spectra : Type := {
  get_transfer : float -> result transfer;
  get_pklin : list float -> float -> result (list float)
}.

(** What is on the disk under a name: a parameter file (the scalar entries
    [key = value] of its top level, as [configobj] parses them: unquoted
    strs), a table this script wrote, a directory, or any other file. *)
Inductive content : Type :=
| ParamFile (lines : gmap string string)
| TransferFile (header : string) (table : transfer)
| PowerFile (rows : list (float * float))
| Directory
| OtherFile.

(** What the script takes from outside this file: the conversions of the
    Python runtime and of the C library, the operating system's view of
    paths, and the CLASS engine. *)
Class Runtime : Type := {
  (** the file a path names for this process: the key of the file on the
      disk, with the working directory, [.], [..] and links resolved *)
  resolve : string -> string;
  (** what opening a path for writing raises on a disk, if it raises: the
      directory of the path does not exist, or cannot be written *)
  create_error : gmap string content -> string -> option exn;
  (** [float(s)] and [int(s)] on a str, [None] for [ValueError] *)
  py_float : string -> option float;
  py_int : string -> option Z;
  (** C's [pow(x, 2.0)], which computes [x ** 2] *)
  libm_pow2 : float -> float;
  (** ['%.2f' % x] *)
  fmt_2f : float -> string;
  (** [str(x)] for a float *)
  py_str : float -> string;
  (** [CLASS.Spectra(CLASS.ClassEngine(pre_params))] *)
  ClassEngine : gmap string value -> result Spectra
}.

(** ** The world: the files on disk and what the run did *)

Inductive event : Type :=
| EvRead (path : string)
| EvExists (path : string)
| EvEngine (pre_params : gmap string value)
| EvGetTransfer (z : float)
| EvGetPklin (k : list float) (z : float)
| EvWrite (path : string).

Record world : Type := World {
  files : gmap string content;
  trace : list event
}.

(** Stateful code: it ends with a value or an exception, and leaves the
    world as it was when it ended (files written before an exception stay). *)
Definition M (A : Type) : Type := world -> result A * world.

#[global] Instance M_ret : MRet M := fun A a w => (Ok a, w).
#[global] Instance M_bind : MBind M := fun A B f m w =>
  match m w with
  | (Ok a, w') => f a w'
  | (Raise e, w') => (Raise e, w')
  end.

Definition raise {A} (e : exn) : M A := fun w => (Raise e, w).
Definition lift {A} (r : result A) : M A := fun w => (r, w).
Definition gets {A} (f : world -> A) : M A := fun w => (Ok (f w), w).
Definition log (e : event) : M unit :=
  fun w => (Ok (), World (files w) (trace w ++ [e])%list).

(** [config[key]].  [configobj] interpolates a str value that holds
    [%(name)s] when it is read; the model reads values as they are, which is
    what [configobj] does with a value without [%]. *)
Definition getitem (config : gmap string value) (key : string) : result value :=
  match config !! key with
  | Some v => Ok v
  | None => Raise (KeyError key)
  end.

Section Script.
Context {rt : Runtime}.

(** [os.path.exists(p)]: the file the path names is on the disk. *)
Definition os_path_exists (p : string) : M bool :=
  log (EvExists p);; gets (fun w => bool_decide (is_Some (files w !! resolve p))).

(** Writing a file ([np.savetxt]) opens it for writing, which can fail, and
    then creates the file the path names or replaces what it held. *)
Definition store (p : string) (c : content) : M unit :=
  fun w => (Ok (), World (<[resolve p := c]> (files w)) (trace w)).
Definition write_file (p : string) (c : content) : M unit :=
  x ← gets (fun w => create_error (files w) p);
  match x with
  | Some e => raise e
  | None => log (EvWrite p);; store p c
  end.

(** ** Loading and validating ([configobj], [validate]) *)

(** [configobj.ConfigObj(infile=paramfile, configspec=..., file_error=True)]:
    every value of a freshly read file is a str.  The model covers the
    parameter files MP-GenIC reads: scalar entries at the top level, no
    sections and no list values.  A file of another content is one that
    cannot be parsed; a directory is not a file, and is not found. *)
Definition ConfigObj (paramfile : string) : M (gmap string value) :=
  log (EvRead paramfile);;
  f ← gets (fun w => files w !! resolve paramfile);
  match f with
  | Some (ParamFile lines) => mret (VStr <$> lines)
  | Some Directory | None => raise (IOError [not_found_message paramfile])
  | Some _ => raise ConfigObjError
  end.

(** The check functions [string], [integer] and [float] of [validate]: the
    converted value, or [None] where the function raises a validation
    error. *)
Definition check_value (chk : check) (v : value) : option value :=
  match chk with
  | string_check _ =>
      match v with VStr s => Some v | _ => None end
  | integer_check vmin vmax _ =>
      n ← match v with
          | VInt n => Some n
          | VStr s => py_int s
          | _ => None
          end;
      if int_in_range vmin vmax n then Some (VInt n) else None
  | float_check vmin vmax _ =>
      f ← match v with
          | VFloat f => Some f
          | VInt n => match float_of_int n with Ok f => Some f | Raise _ => None end
          | VStr s => py_float s
          | _ => None
          end;
      if float_in_range vmin vmax f then Some (VFloat f) else None
  end.

(** One entry of the configspec against the configuration: a value that
    passes is replaced by its converted form, a missing one by the default;
    a value that fails stays as it was and the key is reported. *)
Definition validate_entry (acc : gmap string value * list string)
    (entry : string * check) : gmap string value * list string :=
  let '(config, failed) := acc in
  let '(key, chk) := entry in
  match config !! key with
  | Some v =>
      match check_value chk v with
      | Some v' => (<[key := v']> config, failed)
      | None => (config, (failed ++ [key])%list)
      end
  | None =>
      match default_value chk with
      | Some d => (<[key := d]> config, failed)
      | None => (config, (failed ++ [key])%list)
      end
  end.

(** [config.validate(vtor)]: the configuration after the call, and the keys
    that failed (the call returns [True] when there is none, and otherwise a
    dict that marks them; it does not raise). *)
Definition validate (config : gmap string value) : gmap string value * list string :=
  foldl validate_entry (config, []) GenICconfigspec.

(** A value of the declared type within the declared range, and a
    configuration in which every key of the configspec holds one. *)
Definition conforms (chk : check) (v : value) : bool :=
  match chk, v with
  | string_check _, VStr _ => true
  | integer_check vmin vmax _, VInt n => int_in_range vmin vmax n
  | float_check vmin vmax _, VFloat f => float_in_range vmin vmax f
  | _, _ => false
  end.
Definition schema_ok (config : gmap string value) : bool :=
  forallb (fun entry : string * check =>
             match config !! entry.1 with
             | Some v => conforms entry.2 v
             | None => false
             end) GenICconfigspec.

(** ** [_check_genic_config] *)

(** The loop [for ff in filekeys] of the check. *)
Fixpoint check_savefiles (config : gmap string value) (filekeys : list string) : M unit :=
  match filekeys with
  | [] => mret ()
  | ff :: rest =>
      v ← lift (getitem config ff);
      if py_eq_empty v then raise (IOError ["No savefile specified for "; ff])
      else
        p ← lift (as_str v);
        e ← os_path_exists p;
        if (e : bool) then raise (IOError ["Refusing to write to existing file: "; p])
        else check_savefiles config rest
  end.

(** The keys of the files the run is to write. *)
Definition filekeys (dtf : value) : list string :=
  (["FileWithInputSpectrum"]
     ++ (if py_eq_one dtf then ["FileWithTransferFunction"] else []))%list.

(** Check that the MP-GenIC config file is sensible for running CLASS on.
    The configuration is validated in place, so the model returns it. *)
Definition _check_genic_config (config : gmap string value) : M (gmap string value) :=
  let '(config, _) := validate config in
  dtf ← lift (getitem config "DifferentTransferFunctions");
  check_savefiles config (filekeys dtf);;
  (* Check unsupported configurations *)
  mwdm ← lift (getitem config "MWDM_Therm");
  warm ← lift (py_gt mwdm 0);
  if (warm : bool)
  then raise (ValueError "Warm dark matter power spectrum cutoff not yet supported.")
  else
    dtf ← lift (getitem config "DifferentTransferFunctions");
    (if py_eq_one dtf then
       ipr ← lift (getitem config "InputPowerRedshift");
       rescale ← lift (py_ge ipr 0);
       if (rescale : bool)
       then raise (ValueError "Rescaling with different transfer functions not supported.")
       else mret tt
     else (mret tt : M unit));;
    mret config.

(** ** [_build_cosmology_params] *)

(** [a + b]: two strs are concatenated, numbers are added, a str and a
    number raise. *)
Definition py_add (a b : value) : result value :=
  match a, b with
  | VStr s, VStr t => Ok (VStr (s ++ t))
  | _, _ => x ← as_float a; y ← as_float b; mret (VFloat (x + y))
  end.

(** [a - b] and [a / b] on numbers. *)
Definition py_sub (a b : value) : result float :=
  x ← as_float a; y ← as_float b; mret (x - y)%float.
Definition py_div (a b : value) : result float :=
  x ← as_float a; y ← as_float b; py_truediv x y.

(** [h0 ** 2]: the C library's [pow], with [OverflowError] when a finite
    base gives an infinite result. *)
Definition py_pow2 (h0 : value) : result float :=
  x ← as_float h0;
  let r := libm_pow2 x in
  if is_infinity r && negb (is_infinity x) then Raise OverflowError else Ok r.

(** ['%.2f,%.2f,%.2f' % (a, b, c)]. *)
Definition fmt_masses (a b c : value) : result string :=
  x ← as_float a; y ← as_float b; z ← as_float c;
  mret (fmt_2f x ++ "," ++ fmt_2f y ++ "," ++ fmt_2f z).

(** Build a correctly-named-for-class set of cosmology parameters from the
    MP-GenIC config file.  The function overwrites [config['OmegaBaryon']],
    so the model returns the configuration with the parameters. *)
Definition _build_cosmology_params (config : gmap string value)
    : result (gmap string value * gmap string value) :=
  (* Class takes omega_m h^2 as parameters *)
  h0 ← getitem config "HubbleParam";
  mnue ← getitem config "MNue";
  mnum ← getitem config "MNum";
  msum ← py_add mnue mnum;
  mnut ← getitem config "MNut";
  msum ← py_add msum mnut;
  q ← py_div msum (VFloat 93.14);
  hsq ← py_pow2 h0;
  omeganu ← py_truediv q hsq;
  ob ← getitem config "OmegaBaryon";
  small ← py_lt ob 0.001;
  let config := if (small : bool) then <["OmegaBaryon" := VFloat 0.0486]> config else config in
  o0 ← getitem config "Omega0";
  ob ← getitem config "OmegaBaryon";
  d ← py_sub o0 ob;
  let ocdm := (d - omeganu)%float in
  ol ← getitem config "OmegaLambda";
  d ← py_sub (VFloat 1) ol;
  o0 ← getitem config "Omega0";
  omegak ← py_sub (VFloat d) o0;
  h ← getitem config "HubbleParam";
  ob ← getitem config "OmegaBaryon";
  ns ← getitem config "PrimordialIndex";
  tcmb ← getitem config "CMBTemperature";
  let gparams : gmap string value :=
    <["T_cmb" := tcmb]> (<["n_s" := ns]> (<["Omega_k" := VFloat omegak]>
    (<["Omega_b" := ob]> (<["Omega_cdm" := VFloat ocdm]> (<["h" := h]> ∅))))) in
  (* One may specify either OmegaLambda or Omega_fld, and the other is worked
     out by summing all matter to unity.  Specify Omega_fld even if we have
     Lambda, to avoid floating point. *)
  ofld ← getitem config "Omega_fld";
  let gparams := <["Omega_fld" := ofld]> gparams in
  fld ← py_gt ofld 0;
  gparams ←
    (if (fld : bool) then
       w0 ← getitem config "w0_fld";
       wa ← getitem config "wa_fld";
       mret (<["wa_fld" := wa]> (<["w0_fld" := w0]> gparams))
     else mret gparams);
  (* Set up massive neutrinos *)
  gparams ←
    (if (0 <? omeganu)%float then
       mnue ← getitem config "MNue";
       mnum ← getitem config "MNum";
       mnut ← getitem config "MNut";
       m_ncdm ← fmt_masses mnue mnum mnut;
       mret (<["ncdm_fluid_approximation" := VInt 3]>
             (<["l_max_ncdm" := VInt 50]>
             (<["tol_ncdm_bg" := VFloat 1e-10]>
             (<["tol_ncdm_synchronous" := VFloat 1e-5]>
             (<["tol_ncdm_newtonian" := VFloat 1e-5]>
             (<["N_ur" := VFloat 0.00641]>
             (<["N_ncdm" := VInt 3]>
             (<["m_ncdm" := VStr m_ncdm]> gparams))))))))
     else mret (<["N_ur" := VFloat 3.046]> gparams));
  (* Power spectrum amplitude *)
  s8 ← getitem config "Sigma8";
  norm ← py_gt s8 0;
  gparams ←
    (if (norm : bool) then mret (<["sigma8" := s8]> gparams)
     else
       (* Pivot scale is by default 0.05 1/Mpc! *)
       amp ← getitem config "PrimordialAmp";
       mret (<["A_s" := amp]> gparams));
  mret (config, gparams).

(** ** [make_class_power] *)

(** The precision settings the run starts from, the synchronous gauge
    included. *)
Definition precision_params : gmap string value :=
  <["gauge" := VStr "synchronous"]>
  (<["l_max_ur" := VInt 150]>
  (<["l_max_g" := VInt 50]>
  (<["transfer_neglect_late_source" := VFloat 3000]>
  (<["neglect_CMB_sources_below_visibility" := VFloat 1e-30]>
  (<["k_per_decade_for_bao" := VInt 200]>
  (<["k_per_decade_for_pk" := VInt 20]>
  (<["tol_thermo_integration" := VFloat 1e-5]>
  (<["tol_perturb_integration" := VFloat 1e-7]>
  (<["tol_background_integration" := VFloat 1e-9]> ∅))))))))).

Definition verb_params : gmap string value :=
  list_to_map ((fun key : string => (key, VInt 1)) <$>
    ["input_verbose"; "background_verbose"; "thermodynamics_verbose";
     "perturbations_verbose"; "transfer_verbose"; "primordial_verbose";
     "spectra_verbose"; "nonlinear_verbose"; "lensing_verbose"; "output_verbose"]).

Definition MPC_in_cm : float := 3.085678e24.

(** [boxmpc] and [maxk]: the box side in Mpc and the largest wavenumber. *)
Definition box_in_mpc (config : gmap string value) : result float :=
  box ← getitem config "BoxSize";
  x ← as_float box;
  unit_cm ← getitem config "UnitLength_in_cm";
  y ← as_float unit_cm;
  mret (x / MPC_in_cm * y)%float.

Definition max_wavenumber (config : gmap string value) (boxmpc : float) : result float :=
  q ← py_truediv (2 * math_pi)%float boxmpc;
  ngrid ← getitem config "Ngrid";
  n ← as_float ngrid;
  mret (q * n * 16)%float.

(** The target redshift: [Redshift], or [InputPowerRedshift] when that is
    not negative. *)
Definition target_redshift (config : gmap string value) : result value :=
  redshift ← getitem config "Redshift";
  ipr ← getitem config "InputPowerRedshift";
  rescale ← py_ge ipr 0;
  mret (if (rescale : bool) then ipr else redshift).

(** The parameters handed to the engine: the precision settings updated
    with the cosmology, the power-spectrum options, the verbosity flags and
    the external primordial spectrum.  [dict.update] lets the later mapping
    win, as the left-biased union does. *)
Definition solver_params (config gparams : gmap string value) (redshift : value)
    (external_pk : option string) (extraz : option (list float)) (verbose : bool)
    : result (gmap string value) :=
  let pre_params := gparams ∪ precision_params in
  let outputs := redshift :: from_option (fmap VFloat) [] extraz in
  (* Pass options for the power spectrum *)
  boxmpc ← box_in_mpc config;
  maxk ← max_wavenumber config boxmpc;
  zmax ← np_max outputs;
  let powerparams : gmap string value :=
    <["extra metric transfer functions" := VStr "y"]>
    (<["z_pk" := VArr outputs]>
    (<["z_max_pk" := VFloat (1 + zmax)]>
    (<["P_k_max_h/Mpc" := VFloat maxk]>
    (<["output" := VStr "dTk vTk mPk"]> ∅)))) in
  let pre_params := powerparams ∪ pre_params in
  let pre_params := if verbose then verb_params ∪ pre_params else pre_params in
  (* Specify an external primordial power spectrum *)
  mret match external_pk with
       | Some file =>
           <["command" := VTuple [VStr "cat "; VStr file]]>
           (<["P_k_ini" := VStr "external_pk"]> pre_params)
       | None => pre_params
       end.

(** Make the power spectra module. *)
Definition class_engine (pre_params : gmap string value) : M Spectra :=
  log (EvEngine pre_params);; lift (ClassEngine pre_params).

Definition query_transfer (powspec : Spectra) (z : float) : M transfer :=
  log (EvGetTransfer z);; lift (get_transfer powspec z).
Definition query_pklin (powspec : Spectra) (k : list float) (z : float) : M (list float) :=
  log (EvGetPklin k z);; lift (get_pklin powspec k z).

Definition transfer_header : string :=
"Transfer functions T_i(k) for adiabatic (AD) mode (normalized to initial curvature=1)
d_i   stands for (delta rho_i/rho_i)(k,z) with above normalization
d_tot stands for (delta rho_tot/rho_tot)(k,z) with rho_Lambda NOT included in rho_tot
(note that this differs from the transfer function output from CAMB/CMBFAST, which gives the same
 quantities divided by -k^2 with k in Mpc^-1; use format=camb to match CAMB)
t_i   stands for theta_i(k,z) with above normalization
t_tot stands for (sum_i [rho_i+p_i] theta_i)/(sum_i [rho_i+p_i]))(k,z)
If some neutrino species are massless, or degenerate, the d_ncdm and t_ncdm columns may be missing below.
1:k (h/Mpc)              2:d_g                    3:d_b                    4:d_cdm                  5:d_ur        6:d_ncdm[0]              7:d_ncdm[1]              8:d_ncdm[2]              9:d_tot                 10:phi     11:psi                   12:h                     13:h_prime               14:eta                   15:eta_prime     16:t_g                   17:t_b                   18:t_ur        19:t_ncdm[0]             20:t_ncdm[1]             21:t_ncdm[2]             22:t_tot".

(** Save a transfer function, in the format CLASS itself writes. *)
Definition save_transfer (trans : transfer) (transferfile : string) : M unit :=
  write_file transferfile (TransferFile transfer_header trans).

(** [trans['k'][-1] *= 0.9999], against floating-point roundoff at the end
    of the table. *)
Definition nudge_last (k : list float) : result (list float) :=
  match rev k with
  | [] => Raise IndexError
  | last :: front => Ok (rev front ++ [(last * 0.9999)%float])%list
  end.

(** [np.savetxt(pkfile, np.vstack([k, pk_lin]).T)]: the rows must pair up. *)
Definition save_power (pkfile : string) (k pk_lin : list float) : M unit :=
  if (length k =? length pk_lin)%nat
  then write_file pkfile (PowerFile (zip k pk_lin))
  else raise (ValueError "all the input array dimensions except for the concatenation axis must match exactly").

(** The name of an output of an extra redshift: [config[key] + "-" + str(red)]. *)
Definition suffixed (config : gmap string value) (key : string) (red : float) : result string :=
  v ← getitem config key;
  name ← py_add v (VStr "-");
  name ← py_add name (VStr (py_str red));
  as_str name.

(** The loop [for red in extraz]. *)
Fixpoint extraz_loop (config : gmap string value) (powspec : Spectra) (sdir : string)
    (extraz : list float) : M unit :=
  match extraz with
  | [] => mret tt
  | red :: rest =>
      trans ← query_transfer powspec red;
      name ← lift (suffixed config "FileWithTransferFunction" red);
      let tfile := os_path_join sdir name in
      e ← os_path_exists tfile;
      if (e : bool) then raise (NameError "transferfile")
      else
        save_transfer trans tfile;;
        k ← lift (nudge_last (tr_k trans));
        pk_lin ← query_pklin powspec k red;
        name ← lift (suffixed config "FileWithInputSpectrum" red);
        let pkfile := os_path_join sdir name in
        e ← os_path_exists pkfile;
        if (e : bool) then raise (IOError ["Refusing to write to existing file: "; pkfile])
        else
          save_power pkfile k pk_lin;;
          extraz_loop config powspec sdir rest
  end.

(** The second half of [make_class_power], from [#Save directory] on: the
    tables of the target redshift, then those of the extra redshifts. *)
Definition write_outputs (config : gmap string value) (powspec : Spectra)
    (sdir : string) (redshift : value) (extraz : option (list float)) : M unit :=
  (* Get and save the transfer functions if needed *)
  z ← lift (as_float redshift);
  trans ← query_transfer powspec z;
  dtf ← lift (getitem config "DifferentTransferFunctions");
  (if py_eq_one dtf then
     tf ← lift (getitem config "FileWithTransferFunction");
     name ← lift (as_str tf);
     let tfile := os_path_join sdir name in
     e ← os_path_exists tfile;
     if (e : bool) then raise (NameError "transferfile")
     else save_transfer trans tfile
   else (mret tt : M unit));;
  (* fp-roundoff *)
  k ← lift (nudge_last (tr_k trans));
  (* Get and save the matter power spectrum *)
  pk_lin ← query_pklin powspec k z;
  sp ← lift (getitem config "FileWithInputSpectrum");
  name ← lift (as_str sp);
  let pkfile := os_path_join sdir name in
  e ← os_path_exists pkfile;
  if (e : bool) then raise (IOError ["Refusing to write to existing file: "; pkfile])
  else
    save_power pkfile k pk_lin;;
    match extraz with
    | Some reds => extraz_loop config powspec sdir reds
    | None => mret tt
    end.

(** Main routine: parses a parameter file and makes a matter power
    spectrum. *)
Definition make_class_power (paramfile : string) (external_pk : option string)
    (extraz : option (list float)) (verbose : bool) : M unit :=
  config ← ConfigObj paramfile;
  (* Input sanitisation *)
  config ← _check_genic_config config;
  '(config, gparams) ← lift (_build_cosmology_params config);
  redshift ← lift (target_redshift config);
  pre_params ← lift (solver_params config gparams redshift external_pk extraz verbose);
  (* Make the power spectra module *)
  powspec ← class_engine pre_params;
  (* Save directory *)
  let sdir := os_path_dirname paramfile in
  write_outputs config powspec sdir redshift extraz.

End Script.

(** ** Vocabulary of the statements *)

Section Vocabulary.
Context {rt : Runtime}.

(** [h0 ** 2] as the mapper evaluates it. *)
Definition hubble_squared (config : gmap string value) : result float :=
  h0 ← getitem config "HubbleParam"; py_pow2 h0.

(** The neutrino density fraction the mapper computes from three masses and
    the squared Hubble parameter. *)
Definition omega_nu (mnue mnum mnut hsq : float) : float :=
  ((mnue + mnum + mnut) / 93.14 / hsq)%float.

(** The baryon fraction after the substitution of the default for a value
    below 0.001. *)
Definition effective_baryon (ob : float) : float :=
  if (ob <? 0.001)%float then 0.0486%float else ob.

(** The float a valid configuration holds under a key. *)
Definition field (config : gmap string value) (key : string) : float :=
  match config !! key with
  | Some (VFloat f) => f
  | _ => nan
  end.

(** The entries the mapper adds for massive neutrinos. *)
Definition neutrino_block (m_ncdm : string) (gparams : gmap string value)
    : gmap string value :=
  <["ncdm_fluid_approximation" := VInt 3]>
  (<["l_max_ncdm" := VInt 50]>
  (<["tol_ncdm_bg" := VFloat 1e-10]>
  (<["tol_ncdm_synchronous" := VFloat 1e-5]>
  (<["tol_ncdm_newtonian" := VFloat 1e-5]>
  (<["N_ur" := VFloat 0.00641]>
  (<["N_ncdm" := VInt 3]>
  (<["m_ncdm" := VStr m_ncdm]> gparams))))))).

(** One entry of the parameter set the mapper returns. *)
Definition mapped (config : gmap string value) (key : string) : option value :=
  match _build_cosmology_params config with
  | Ok (_, gparams) => gparams !! key
  | Raise _ => None
  end.

(** The paths whose existence the run tested, and the paths it wrote. *)
Definition probed (w : world) : list string :=
  omap (fun e => match e with EvExists p => Some p | _ => None end) (trace w).
Definition written (w : world) : list string :=
  omap (fun e => match e with EvWrite p => Some p | _ => None end) (trace w).
Definition engine_calls (w : world) : list (gmap string value) :=
  omap (fun e => match e with EvEngine p => Some p | _ => None end) (trace w).

(** The int a valid configuration holds under a key. *)
Definition int_field (config : gmap string value) (key : string) : Z :=
  match config !! key with
  | Some (VInt n) => n
  | _ => 0%Z
  end.

(** What an entry of the configspec leaves under its key. *)
Definition entry_value (chk : check) (o : option value) : option value :=
  match o with
  | Some v => Some (default v (check_value chk v))
  | None => default_value chk
  end.

(** A key whose file name is set and free: the two tests of the startup
    check pass. *)
Definition savefile_free (fs : gmap string content) (config : gmap string value)
    (key : string) : bool :=
  match config !! key with
  | Some (VStr name) =>
      negb (bool_decide (name = "")) && negb (bool_decide (is_Some (fs !! resolve name)))
  | _ => false
  end.

(** The configurations the check refuses: warm dark matter, or rescaling
    together with different transfer functions. *)
Definition unsupported (config : gmap string value) : bool :=
  match config !! "MWDM_Therm" with
  | Some (VFloat m) =>
      (0 <? m)%float
      || match config !! "DifferentTransferFunctions", config !! "InputPowerRedshift" with
         | Some (VInt n), Some (VFloat z) => (n =? 1)%Z && (0 <=? z)%float
         | _, _ => false
         end
  | _ => false
  end.

(** An entry of the configspec whose default passes its own check. *)
Definition default_conforms (entry : string * check) : bool :=
  match default_value entry.2 with
  | Some d => conforms entry.2 d
  | None => true
  end.

(** The refusal to write: the [IOError] that names a file that exists. *)
Definition refusal (fs : gmap string content) (e : exn) : Prop :=
  exists p, e = IOError ["Refusing to write to existing file: "; p] /\
            is_Some (fs !! resolve p).


(** The message of the policy check that refuses a configuration. *)
Definition policy_message (config : gmap string value) : string :=
  match config !! "MWDM_Therm" with
  | Some (VFloat m) =>
      if (0 <? m)%float
      then "Warm dark matter power spectrum cutoff not yet supported."
      else "Rescaling with different transfer functions not supported."
  | _ => ""
  end.

(** A value [configobj] reads as it is written: one without [%], the mark
    of an interpolation.  A parameter file with such values only. *)
Definition plain (s : string) : bool :=
  forallb (fun c => negb (Ascii.eqb c "%"%char)) (list_ascii_of_string s).
Definition plain_lines (lines : gmap string string) : bool :=
  forallb (fun entry : string * string => plain entry.2) (map_to_list lines).

(** The file name a configuration holds under a key, and whether its
    switch [DifferentTransferFunctions] is on. *)
Definition filename (config : gmap string value) (key : string) : string :=
  match config !! key with
  | Some (VStr name) => name
  | _ => ""
  end.
Definition different_transfer_functions (config : gmap string value) : bool :=
  match config !! "DifferentTransferFunctions" with
  | Some dtf => py_eq_one dtf
  | None => false
  end.

(** The paths the startup check tests when it passes: the file names as the
    configuration writes them. *)
Definition startup_paths (config : gmap string value) : list string :=
  (filename config "FileWithInputSpectrum"
   :: (if different_transfer_functions config
       then [filename config "FileWithTransferFunction"] else []))%list.

(** The paths a run that returns has tested and then written, in this
    order: the file names joined to the save directory, and for every extra
    redshift the two names with its suffix. *)
Definition extra_paths (config : gmap string value) (sdir : string) (red : float)
    : list string :=
  [os_path_join sdir (filename config "FileWithTransferFunction" ++ "-" ++ py_str red);
   os_path_join sdir (filename config "FileWithInputSpectrum" ++ "-" ++ py_str red)].
Definition output_paths (config : gmap string value) (sdir : string)
    (extraz : option (list float)) : list string :=
  ((if different_transfer_functions config
    then [os_path_join sdir (filename config "FileWithTransferFunction")] else [])
   ++ [os_path_join sdir (filename config "FileWithInputSpectrum")]
   ++ flat_map (extra_paths config sdir) (default [] extraz))%list.

(** The events of a run: it reads the parameter file only, and it hands the
    engine what [solver_params] returns. *)
Definition run_event (paramfile : string) (external_pk : option string)
    (extraz : option (list float)) (verbose : bool) (e : event) : Prop :=
  match e with
  | EvRead f => f = paramfile
  | EvEngine p =>
      exists config gparams redshift,
        solver_params config gparams redshift external_pk extraz verbose = Ok p
  | _ => True
  end.

End Vocabulary.

(** Zeros and NaNs: the floats that are neither below nor above zero. *)
Definition zero_or_nan (x : spec_float) : bool :=
  match x with S754_zero _ | S754_nan => true | _ => false end.

(** [w'] extends [w] by events that satisfy [P]: every file of [w] is still
    there with what it held, and the trace grew by events in [P]. *)
Definition extends (P : event -> Prop) (w w' : world) : Prop :=
  files w ⊆ files w' /\ exists t, trace w' = (trace w ++ t)%list /\ Forall P t.

(** A computation that extends every world it starts from. *)
Definition respects {A} (P : event -> Prop) (m : M A) : Prop :=
  forall w, extends P w (m w).2.

(** A computation that leaves the files alone or writes the one path [p]. *)
Definition touches {A} (P : event -> Prop) (p : string) (m : M A) : Prop :=
  forall w,
    (files (m w).2 = files w \/ exists c, files (m w).2 = <[p := c]> (files w)) /\
    exists t, trace (m w).2 = (trace w ++ t)%list /\ Forall P t.

(** The events of the startup check: tests of the paths of the file keys,
    as the configuration writes them. *)
Definition startup_event (config : gmap string value) (e : event) : Prop :=
  exists key name, e = EvExists name /\
    key ∈ ["FileWithTransferFunction"; "FileWithInputSpectrum"] /\
    config !! key = Some (VStr name).

(** The events of the output phase: queries of the solver, and tests and
    writes of paths under the save directory whose names are those of the
    two file keys of the configuration, as they are or with the suffix of an
    extra redshift. *)
Definition output_path (config : gmap string value) (sdir : string) (p : string) : Prop :=
  exists key name suffix,
    key ∈ ["FileWithTransferFunction"; "FileWithInputSpectrum"] /\
    config !! key = Some (VStr name) /\
    p = os_path_join sdir (name ++ suffix).

Definition output_event (config : gmap string value) (sdir : string) (e : event) : Prop :=
  match e with
  | EvGetTransfer _ | EvGetPklin _ _ => True
  | EvExists p | EvWrite p => output_path config sdir p
  | _ => False
  end.


(** ** What a stretch of a run did *)

Section Effects.
Context {rt : Runtime}.
(** What a stretch of a run did, from [w] to [w1], when it tested and then
    wrote the paths [paths] and nothing else: the tests and the writes are
    these paths in this order, the engine was not started, every file of
    [w] is kept, and each of the paths named no file before and names one
    after. *)
Definition effects (w w1 : world) (paths : list string) : Prop :=
  probed w1 = (probed w ++ paths)%list /\
  written w1 = (written w ++ paths)%list /\
  engine_calls w1 = engine_calls w /\
  files w ⊆ files w1 /\
  Forall (fun p => files w !! resolve p = None /\ is_Some (files w1 !! resolve p)) paths.

(** A computation that has these effects whenever it returns. *)
Definition yields {A} (m : M A) (paths : list string) : Prop :=
  forall w a w1, m w = (Ok a, w1) -> effects w w1 paths.


(** A computation that creates the file a path names when it returns. *)
Definition creates {A} (p : string) (m : M A) : Prop :=
  forall w a w1, m w = (Ok a, w1) ->
    exists c, w1 = World (<[resolve p := c]> (files w)) (trace w ++ [EvWrite p])%list.
End Effects.

(** ** A reference runtime and sample inputs *)

Definition lookup_table {A} (table : list (string * A)) (s : string) : option A :=
  (list_to_map table : gmap string A) !! s.

Definition float_literals : list (string * float) :=
  [ ("0", 0); ("1", 1); ("99", 99); ("100000", 100000); ("0.2814", 0.2814);
    ("0.7186", 0.7186); ("0.0464", 0.0464); ("0.697", 0.697); ("0.81", 0.81);
    ("2000", 2000) ]%float.
Definition int_literals : list (string * Z) :=
  [ ("0", 0); ("1", 1); ("256", 256) ]%Z.

(** A solver that answers every query with the same three-row table. *)
Definition flat_spectra : Spectra :=
  {| get_transfer := fun _ => Ok (Transfer [0.001; 0.01; 0.1]%float [[1; 1; 1]%float]);
     get_pklin := fun k _ => Ok ((fun _ => 1%float) <$> k) |}.

(** Paths on a disk without links: the components of a path, and the
    absolute path it names under a working directory, with empty
    components, [.] and [..] resolved. *)
Fixpoint components (cs : list ascii) (cur : list ascii) : list string :=
  match cs with
  | [] => [string_of_list_ascii (rev cur)]
  | c :: cs' =>
      if is_slash c then string_of_list_ascii (rev cur) :: components cs' []
      else components cs' (c :: cur)
  end.
Definition walk (stack : list string) (name : string) : list string :=
  if decide (name = "") then stack
  else if decide (name = ".") then stack
  else if decide (name = "..") then tail stack
  else name :: stack.
Definition posix_resolve (cwd p : string) : string :=
  if decide (p = "") then ""
  else
    let start :=
      if starts_with_slash p then []
      else foldl walk [] (components (list_ascii_of_string cwd) []) in
    let stack := foldl walk start (components (list_ascii_of_string p) []) in
    foldr (fun name path => "/" ++ name ++ path) "" (rev stack).

(** The runtime of the examples: the process runs in [/sim], every
    directory can be written, and the conversions are the literals above,
    the correctly rounded square, and the two renderings the examples
    need. *)
Definition reference_runtime : Runtime :=
  {| resolve := posix_resolve "/sim";
     create_error := fun _ _ => None;
     py_float := lookup_table float_literals;
     py_int := lookup_table int_literals;
     libm_pow2 := fun x => (x * x)%float;
     fmt_2f := fun x => if (x =? 0.06)%float then "0.06" else "0.00";
     py_str := fun x => if (x =? 49)%float then "49.0" else "0.0";
     ClassEngine := fun _ => Ok flat_spectra |}.

(** A validated configuration: a 100 Mpc/h box with 256^3 particles. *)
Definition sample_config : gmap string value :=
  list_to_map
    [ ("FileWithInputSpectrum", VStr "pk.dat");
      ("FileWithTransferFunction", VStr "transfer.dat");
      ("Ngrid", VInt 256);
      ("BoxSize", VFloat 100000);
      ("Omega0", VFloat 0.2814);
      ("OmegaLambda", VFloat 0.7186);
      ("OmegaBaryon", VFloat 0.0464);
      ("HubbleParam", VFloat 0.697);
      ("Redshift", VFloat 99);
      ("Sigma8", VFloat 0.81);
      ("InputPowerRedshift", VFloat (-1));
      ("DifferentTransferFunctions", VInt 1);
      ("UnitLength_in_cm", VFloat 3.085678e21);
      ("Omega_fld", VFloat 0);
      ("w0_fld", VFloat (-1));
      ("wa_fld", VFloat 0);
      ("MNue", VFloat 0);
      ("MNum", VFloat 0);
      ("MNut", VFloat 0);
      ("MWDM_Therm", VFloat 0);
      ("PrimordialIndex", VFloat 0.971);
      ("PrimordialAmp", VFloat 2.215e-9);
      ("CMBTemperature", VFloat 2.7255) ].

(** The sample with a mass of 5e-324 eV, the smallest positive double, for
    the electron neutrino. *)
Definition tiny_mass_config : gmap string value :=
  <["MNue" := VFloat 0x1p-1074]> sample_config.

(** The sample with Omega0 = 0.9, OmegaBaryon = 0.2, OmegaLambda = 0.1 and
    HubbleParam = 1. *)
Definition dense_config : gmap string value :=
  <["Omega0" := VFloat 0.9]> (<["OmegaBaryon" := VFloat 0.2]>
  (<["OmegaLambda" := VFloat 0.1]> (<["HubbleParam" := VFloat 1]> sample_config))).

(** The parameter file of the sample, in the directory [run]. *)
Definition sample_lines : gmap string string :=
  list_to_map
    [ ("FileWithInputSpectrum", "pk.dat"); ("FileWithTransferFunction", "transfer.dat");
      ("Ngrid", "256"); ("BoxSize", "100000"); ("Omega0", "0.2814");
      ("OmegaLambda", "0.7186"); ("OmegaBaryon", "0.0464"); ("HubbleParam", "0.697");
      ("Redshift", "99"); ("Sigma8", "0.81") ].

Definition sample_paramfile : string := "run/paramfile.genic".

(** A disk that holds a parameter file and nothing else, before any run. *)
Definition fresh_world (lines : gmap string string) : world :=
  World {[ "/sim/run/paramfile.genic" := ParamFile lines; "/sim/run" := Directory;
           "/sim" := Directory ]} [].

(** The sample with a field that is not a number. *)
Definition malformed_lines : gmap string string :=
  <["wa_fld" := "abc"]> sample_lines.

(** The sample without the required [Ngrid]. *)
Definition unnamed_grid_lines : gmap string string := delete "Ngrid" sample_lines.

(** The sample with warm dark matter and no file name for the spectrum. *)
Definition warm_lines : gmap string string :=
  <["MWDM_Therm" := "1"]> sample_lines.
Definition warm_unnamed_lines : gmap string string :=
  <["MWDM_Therm" := "1"]> (delete "FileWithInputSpectrum" sample_lines).

(** The sample with a box of 13000 kpc/h. *)
Definition small_box_config : gmap string value :=
  <["BoxSize" := VFloat 13000]> sample_config.

(** The sample started in the directory of its parameter file, as
    [./paramfile.genic]. *)
Definition dot_paramfile : string := "./paramfile.genic".
Definition dot_world : world :=
  World {[ "/sim/paramfile.genic" := ParamFile sample_lines; "/sim" := Directory ]} [].

(** The sample with a transfer-function file named [run/pk.dat], on a disk
    with the directory [run/run]. *)
Definition crossed_lines : gmap string string :=
  <["FileWithTransferFunction" := "run/pk.dat"]> sample_lines.
Definition crossed_world : world :=
  World {[ "/sim/run/paramfile.genic" := ParamFile crossed_lines; "/sim/run/run" := Directory;
           "/sim/run" := Directory; "/sim" := Directory ]} [].

(** ** Floating-point comparisons *)

Lemma SFcompare_antisym (a b : spec_float) :
  SFcompare b a = option_map CompOpp (SFcompare a b).
Proof.
  destruct a as [sa|sa| |sa ma ea], b as [sb|sb| |sb mb eb]; simpl;
    try reflexivity; try (destruct sa; reflexivity); try (destruct sb; reflexivity);
    try (destruct sa, sb; reflexivity).
  destruct sa, sb; simpl; try reflexivity.
  all: rewrite (Z.compare_antisym ea eb); destruct (ea ?= eb)%Z; simpl; try reflexivity;
    rewrite (Pos.compare_cont_antisym ma mb Eq); reflexivity.
Qed.

(** [c <= x] excludes [x < c]. *)
Lemma float_leb_not_ltb (c x : float) :
  (c <=? x)%float = true -> (x <? c)%float = false.
Proof.
  rewrite leb_spec, ltb_spec. unfold SFleb, SFltb.
  rewrite (SFcompare_antisym (Prim2SF c) (Prim2SF x)).
  destruct (SFcompare (Prim2SF c) (Prim2SF x)) as [[]|]; simpl; congruence.
Qed.

Lemma zero_or_nan_intro (x : float) :
  (x <? 0)%float = false -> (0 <? x)%float = false -> zero_or_nan (Prim2SF x) = true.
Proof.
  rewrite !ltb_spec. change (Prim2SF 0) with (S754_zero false).
  destruct (Prim2SF x) as [s|s| |s m e]; try reflexivity; destruct s; cbv; congruence.
Qed.

Lemma zero_or_nan_not_pos (x : float) :
  zero_or_nan (Prim2SF x) = true -> (0 <? x)%float = false.
Proof.
  rewrite ltb_spec. change (Prim2SF 0) with (S754_zero false).
  destruct (Prim2SF x) as [s|s| |s m e]; cbv; congruence.
Qed.

Lemma zero_or_nan_add (x y : float) :
  zero_or_nan (Prim2SF x) = true -> zero_or_nan (Prim2SF y) = true ->
  zero_or_nan (Prim2SF (x + y)) = true.
Proof.
  rewrite add_spec.
  destruct (Prim2SF x) as [s|s| |s m e], (Prim2SF y) as [s'|s'| |s' m' e']; simpl; try congruence.
  destruct s, s'; reflexivity.
Qed.

Lemma zero_or_nan_div (x y : float) :
  zero_or_nan (Prim2SF x) = true -> zero_or_nan (Prim2SF (x / y)) = true.
Proof.
  rewrite div_spec.
  destruct (Prim2SF x) as [s|s| |s m e], (Prim2SF y) as [s'|s'| |s' m' e']; simpl; congruence.
Qed.

(** ** Valid configurations *)

Section Schema.
Context {rt : Runtime}.

Lemma schema_ok_lookup config key chk :
  schema_ok config = true -> In (key, chk) GenICconfigspec ->
  exists v, config !! key = Some v /\ conforms chk v = true.
Proof.
  unfold schema_ok. rewrite forallb_forall. intros H Hin.
  specialize (H _ Hin). simpl in H.
  destruct (config !! key) as [v|]; [eauto | discriminate].
Qed.

Lemma schema_ok_float config key vmin vmax d :
  schema_ok config = true -> In (key, float_check vmin vmax d) GenICconfigspec ->
  exists f, config !! key = Some (VFloat f) /\ float_in_range vmin vmax f = true.
Proof.
  intros H Hin. destruct (schema_ok_lookup _ _ _ H Hin) as (v & Hv & Hc).
  destruct v; simpl in Hc; try discriminate. eauto.
Qed.

Lemma sample_config_ok : schema_ok sample_config = true.
Proof. vm_compute. reflexivity. Qed.

End Schema.

(** ** The cosmology parameter mapper on valid configurations *)

Ltac spec_member := simpl; repeat first [left; reflexivity | right].

Ltac float_field Hok key f :=
  let Hf := fresh "L" f in
  let Rf := fresh "R" f in
  destruct (schema_ok_float _ key _ _ _ Hok ltac:(spec_member)) as (f & Hf & Rf).

Section Mapper.
Context {rt : Runtime}.

(** The mapper on a configuration whose fields are floats, as long as
    [h0 ** 2] is a non-zero number: the mapping it returns, layer by layer. *)
Lemma build_cosmology_params_typed config h0 hsq mnue mnum mnut ob o0 ol ns tcmb
    ofld w0 wa s8 amp :
  config !! "HubbleParam" = Some (VFloat h0) ->
  config !! "MNue" = Some (VFloat mnue) ->
  config !! "MNum" = Some (VFloat mnum) ->
  config !! "MNut" = Some (VFloat mnut) ->
  config !! "OmegaBaryon" = Some (VFloat ob) ->
  config !! "Omega0" = Some (VFloat o0) ->
  config !! "OmegaLambda" = Some (VFloat ol) ->
  config !! "PrimordialIndex" = Some (VFloat ns) ->
  config !! "CMBTemperature" = Some (VFloat tcmb) ->
  config !! "Omega_fld" = Some (VFloat ofld) ->
  config !! "w0_fld" = Some (VFloat w0) ->
  config !! "wa_fld" = Some (VFloat wa) ->
  config !! "Sigma8" = Some (VFloat s8) ->
  config !! "PrimordialAmp" = Some (VFloat amp) ->
  py_pow2 (VFloat h0) = Ok hsq ->
  (hsq =? 0)%float = false ->
  let omeganu := omega_nu mnue mnum mnut hsq in
  let ob' := effective_baryon ob in
  let g0 : gmap string value :=
    <["Omega_fld" := VFloat ofld]>
    (<["T_cmb" := VFloat tcmb]> (<["n_s" := VFloat ns]>
    (<["Omega_k" := VFloat (1 - ol - o0)]>
    (<["Omega_b" := VFloat ob']> (<["Omega_cdm" := VFloat (o0 - ob' - omeganu)]>
    (<["h" := VFloat h0]> ∅)))))) in
  let g1 := if (0 <? ofld)%float
            then <["wa_fld" := VFloat wa]> (<["w0_fld" := VFloat w0]> g0) else g0 in
  let g2 := if (0 <? omeganu)%float
            then neutrino_block (fmt_2f mnue ++ "," ++ fmt_2f mnum ++ "," ++ fmt_2f mnut) g1
            else <["N_ur" := VFloat 3.046]> g1 in
  let g3 := if (0 <? s8)%float
            then <["sigma8" := VFloat s8]> g2 else <["A_s" := VFloat amp]> g2 in
  _build_cosmology_params config
  = Ok (if (ob <? 0.001)%float then <["OmegaBaryon" := VFloat 0.0486]> config else config, g3).
Proof.
  intros Lh0 Lmnue Lmnum Lmnut Lob Lo0 Lol Lns Ltcmb Lofld Lw0 Lwa Ls8 Lamp Hsq Hnz.
  unfold _build_cosmology_params, getitem, effective_baryon, omega_nu.
  rewrite Lh0, Lmnue, Lmnum, Lmnut. simpl.
  unfold py_truediv at 1. change (93.14 =? 0)%float with false. simpl.
  rewrite Hsq. simpl. unfold py_truediv. rewrite Hnz. simpl.
  rewrite Lob. simpl.
  assert (Hother : forall key, key <> "OmegaBaryon" ->
            (if (ob <? 0.001)%float then <["OmegaBaryon" := VFloat 0.0486]> config else config)
              !! key = config !! key).
  { intros key Hne. destruct (ob <? 0.001)%float; [apply lookup_insert_ne; congruence | reflexivity]. }
  assert (Hob : (if (ob <? 0.001)%float then <["OmegaBaryon" := VFloat 0.0486]> config else config)
                  !! "OmegaBaryon"
                = Some (VFloat (if (ob <? 0.001)%float then 0.0486%float else ob))).
  { destruct (ob <? 0.001)%float; [apply lookup_insert_eq | exact Lob]. }
  rewrite Hob. rewrite !Hother by done. clear Hob Hother.
  rewrite Lo0, Lol, Lh0, Lns, Ltcmb, Lofld, Ls8, Lw0, Lwa, Lmnue, Lmnum, Lmnut, Lamp. simpl.
  destruct (0 <? ofld)%float; simpl;
    destruct (0 <? (mnue + mnum + mnut) / 93.14 / hsq)%float; simpl;
    destruct (0 <? s8)%float; reflexivity.
Qed.

(** A valid configuration holds a float under every key the mapper reads,
    and no negative neutrino mass. *)
Lemma schema_ok_typed config hsq :
  schema_ok config = true ->
  hubble_squared config = Ok hsq ->
  exists h0 mnue mnum mnut ob o0 ol ns tcmb ofld w0 wa s8 amp,
    (config !! "HubbleParam" = Some (VFloat h0) /\
     config !! "MNue" = Some (VFloat mnue) /\
     config !! "MNum" = Some (VFloat mnum) /\
     config !! "MNut" = Some (VFloat mnut) /\
     config !! "OmegaBaryon" = Some (VFloat ob) /\
     config !! "Omega0" = Some (VFloat o0) /\
     config !! "OmegaLambda" = Some (VFloat ol)) /\
    (config !! "PrimordialIndex" = Some (VFloat ns) /\
     config !! "CMBTemperature" = Some (VFloat tcmb) /\
     config !! "Omega_fld" = Some (VFloat ofld) /\
     config !! "w0_fld" = Some (VFloat w0) /\
     config !! "wa_fld" = Some (VFloat wa) /\
     config !! "Sigma8" = Some (VFloat s8) /\
     config !! "PrimordialAmp" = Some (VFloat amp)) /\
    py_pow2 (VFloat h0) = Ok hsq /\
    ((mnue <? 0)%float = false /\ (mnum <? 0)%float = false /\ (mnut <? 0)%float = false).
Proof.
  intros Hok Hsq.
  float_field Hok "HubbleParam" h0.
  float_field Hok "MNue" mnue. float_field Hok "MNum" mnum. float_field Hok "MNut" mnut.
  float_field Hok "OmegaBaryon" ob. float_field Hok "Omega0" o0.
  float_field Hok "OmegaLambda" ol. float_field Hok "PrimordialIndex" ns.
  float_field Hok "CMBTemperature" tcmb. float_field Hok "Omega_fld" ofld.
  float_field Hok "w0_fld" w0. float_field Hok "wa_fld" wa.
  float_field Hok "Sigma8" s8. float_field Hok "PrimordialAmp" amp.
  unfold hubble_squared, getitem in Hsq. rewrite Lh0 in Hsq. simpl in Hsq.
  exists h0, mnue, mnum, mnut, ob, o0, ol, ns, tcmb, ofld, w0, wa, s8, amp.
  repeat split; try assumption.
  all: match goal with
       | H : float_in_range (Some 0%float) None ?m = true |- (?m <? 0)%float = false =>
           unfold float_in_range in H; simpl in H;
           destruct (m <? 0)%float; [discriminate | reflexivity]
       end.
Qed.

(** Without a usable [h0 ** 2] there is no parameter set: a zero square
    makes a valid configuration raise [ZeroDivisionError]. *)
Lemma build_cosmology_params_zero_hubble config hsq :
  schema_ok config = true ->
  hubble_squared config = Ok hsq ->
  (hsq =? 0)%float = true ->
  _build_cosmology_params config = Raise ZeroDivisionError.
Proof.
  intros Hok Hsq Hz.
  destruct (schema_ok_typed _ _ Hok Hsq)
    as (h0 & mnue & mnum & mnut & ob & o0 & ol & ns & tcmb & ofld & w0 & wa & s8 & amp
        & (Lh0 & Lmnue & Lmnum & Lmnut & _) & _ & Hpow & _).
  unfold _build_cosmology_params, getitem.
  rewrite Lh0, Lmnue, Lmnum, Lmnut. simpl.
  unfold py_truediv at 1. change (93.14 =? 0)%float with false. simpl.
  rewrite Hpow. simpl. unfold py_truediv. rewrite Hz. reflexivity.
Qed.

(** With a usable [h0 ** 2] the mapper returns a parameter set for every
    valid configuration, and it returns one in no other case. *)
Lemma build_cosmology_params_returns config hsq :
  schema_ok config = true ->
  hubble_squared config = Ok hsq ->
  (hsq =? 0)%float = false ->
  is_ok (_build_cosmology_params config) = true.
Proof.
  intros Hok Hsq Hnz.
  destruct (schema_ok_typed _ _ Hok Hsq)
    as (h0 & mnue & mnum & mnut & ob & o0 & ol & ns & tcmb & ofld & w0 & wa & s8 & amp
        & (Lh0 & Lmnue & Lmnum & Lmnut & Lob & Lo0 & Lol)
        & (Lns & Ltcmb & Lofld & Lw0 & Lwa & Ls8 & Lamp) & Hpow & _).
  by rewrite (build_cosmology_params_typed _ _ _ _ _ _ _ _ _ _ _ _ _ _ _ _
                Lh0 Lmnue Lmnum Lmnut Lob Lo0 Lol Lns Ltcmb Lofld Lw0 Lwa Ls8 Lamp Hpow Hnz).
Qed.

Lemma build_cosmology_params_ok_inv config config' gparams :
  schema_ok config = true ->
  _build_cosmology_params config = Ok (config', gparams) ->
  exists hsq, hubble_squared config = Ok hsq /\ (hsq =? 0)%float = false.
Proof.
  intros Hok Hbuild.
  destruct (hubble_squared config) as [hsq|e] eqn:Hsq.
  - exists hsq. split; [done|]. destruct (hsq =? 0)%float eqn:Hz; [|done].
    rewrite (build_cosmology_params_zero_hubble _ _ Hok Hsq Hz) in Hbuild. discriminate.
  - exfalso. float_field Hok "HubbleParam" h0.
    float_field Hok "MNue" mnue. float_field Hok "MNum" mnum. float_field Hok "MNut" mnut.
    unfold hubble_squared, getitem in Hsq. rewrite Lh0 in Hsq. simpl in Hsq.
    unfold _build_cosmology_params, getitem in Hbuild.
    rewrite Lh0, Lmnue, Lmnum, Lmnut in Hbuild. simpl in Hbuild.
    unfold py_truediv at 1 in Hbuild. change (93.14 =? 0)%float with false in Hbuild.
    simpl in Hbuild. rewrite Hsq in Hbuild. discriminate.
Qed.

End Mapper.

Ltac typed_config Hok Hsq Hnz :=
  let Hpow := fresh "Hpow" in
  let Hbuild := fresh "Hbuild" in
  destruct (schema_ok_typed _ _ Hok Hsq)
    as (h0 & mnue & mnum & mnut & ob & o0 & ol & ns & tcmb & ofld & w0 & wa & s8 & amp
        & (Lh0 & Lmnue & Lmnum & Lmnut & Lob & Lo0 & Lol)
        & (Lns & Ltcmb & Lofld & Lw0 & Lwa & Ls8 & Lamp) & Hpow & (Rmnue & Rmnum & Rmnut));
  pose proof (build_cosmology_params_typed _ _ _ _ _ _ _ _ _ _ _ _ _ _ _ _
                Lh0 Lmnue Lmnum Lmnut Lob Lo0 Lol Lns Ltcmb Lofld Lw0 Lwa Ls8 Lamp Hpow Hnz)
    as Hbuild;
  cbv zeta in Hbuild.

Ltac returned_config Hok Hret :=
  let hsq := fresh "hsq" in
  let Hsq := fresh "Hsq" in
  let Hnz := fresh "Hnz" in
  destruct (build_cosmology_params_ok_inv _ _ _ Hok Hret) as (hsq & Hsq & Hnz);
  typed_config Hok Hsq Hnz;
  match goal with
  | Hb : _build_cosmology_params _ = Ok (if _ then _ else _, _) |- _ =>
      rewrite Hb in Hret; injection Hret as <- <-
  end.

(** The three conditional layers of the mapping leave the other keys alone. *)
Lemma lookup_amplitude_layer (c : bool) (a b : value) (g : gmap string value) key :
  key <> "sigma8" -> key <> "A_s" ->
  (if c then <["sigma8" := a]> g else <["A_s" := b]> g) !! key = g !! key.
Proof. intros; destruct c; by rewrite lookup_insert_ne. Qed.

Lemma lookup_neutrino_block m g key :
  key ∉ ["ncdm_fluid_approximation"; "l_max_ncdm"; "tol_ncdm_bg"; "tol_ncdm_synchronous";
         "tol_ncdm_newtonian"; "N_ur"; "N_ncdm"; "m_ncdm"] ->
  neutrino_block m g !! key = g !! key.
Proof.
  intros Hk. unfold neutrino_block.
  repeat (rewrite lookup_insert_ne; [| intros <-; apply Hk; set_solver]).
  reflexivity.
Qed.

Lemma lookup_neutrino_layer (c : bool) m (x : value) (g : gmap string value) key :
  key ∉ ["ncdm_fluid_approximation"; "l_max_ncdm"; "tol_ncdm_bg"; "tol_ncdm_synchronous";
         "tol_ncdm_newtonian"; "N_ur"; "N_ncdm"; "m_ncdm"] ->
  (if c then neutrino_block m g else <["N_ur" := x]> g) !! key = g !! key.
Proof.
  intros Hk. destruct c; [by apply lookup_neutrino_block|].
  rewrite lookup_insert_ne; [reflexivity | intros <-; apply Hk; set_solver].
Qed.

Lemma lookup_fluid_layer (c : bool) (a b : value) (g : gmap string value) key :
  key <> "wa_fld" -> key <> "w0_fld" ->
  (if c then <["wa_fld" := a]> (<["w0_fld" := b]> g) else g) !! key = g !! key.
Proof. intros; destruct c; [by rewrite !lookup_insert_ne | reflexivity]. Qed.

Ltac not_listed := rewrite !not_elem_of_cons; repeat split; [done .. | apply not_elem_of_nil].

Section MapperClaims.
Context {rt : Runtime}.

(** C3 (as amended).  For every valid configuration, the parameter set the
    mapper derives holds under [Omega_b] the effective baryon fraction and
    under [Omega_cdm] the double [Omega0 - OmegaBaryon_effective - Omega_nu],
    the two subtractions made in this order in binary64 arithmetic, with
    [Omega_nu = (MNue + MNum + MNut) / 93.14 / h0 ** 2]. *)
Theorem cdm_density_is_remainder config config' gparams :
  schema_ok config = true ->
  _build_cosmology_params config = Ok (config', gparams) ->
  exists hsq,
    hubble_squared config = Ok hsq /\
    let ob' := effective_baryon (field config "OmegaBaryon") in
    let omeganu := omega_nu (field config "MNue") (field config "MNum")
                     (field config "MNut") hsq in
    gparams !! "Omega_b" = Some (VFloat ob') /\
    gparams !! "Omega_cdm" = Some (VFloat (field config "Omega0" - ob' - omeganu)).
Proof.
  intros Hok Hret. returned_config Hok Hret.
  exists hsq. split; [exact Hsq|].
  unfold field. rewrite Lob, Lo0, Lmnue, Lmnum, Lmnut. cbv zeta.
  rewrite !lookup_amplitude_layer by done.
  rewrite !lookup_neutrino_layer by not_listed.
  rewrite !lookup_fluid_layer by done.
  split; by simplify_map_eq.
Qed.

(** C4.  For every valid configuration and the parameter set the mapper
    derives from it: with [OmegaBaryon >= 0.001] the parameter [Omega_b] is
    the input [OmegaBaryon], unchanged in the configuration too; with
    [OmegaBaryon < 0.001] the configuration and [Omega_b] hold 0.0486, and
    0.0486 is what [Omega_cdm] is computed from. *)
Theorem baryon_fraction_floor config config' gparams :
  schema_ok config = true ->
  _build_cosmology_params config = Ok (config', gparams) ->
  let ob := field config "OmegaBaryon" in
  ((0.001 <=? ob)%float = true ->
     gparams !! "Omega_b" = Some (VFloat ob) /\
     config' !! "OmegaBaryon" = Some (VFloat ob)) /\
  ((ob <? 0.001)%float = true ->
     gparams !! "Omega_b" = Some (VFloat 0.0486) /\
     config' !! "OmegaBaryon" = Some (VFloat 0.0486) /\
     exists hsq,
       hubble_squared config = Ok hsq /\
       gparams !! "Omega_cdm"
       = Some (VFloat (field config "Omega0" - 0.0486
                       - omega_nu (field config "MNue") (field config "MNum")
                           (field config "MNut") hsq))).
Proof.
  intros Hok Hret. returned_config Hok Hret.
  unfold field, effective_baryon. rewrite Lob, Lo0, Lmnue, Lmnum, Lmnut. cbv zeta.
  rewrite !lookup_amplitude_layer by done.
  rewrite !lookup_neutrino_layer by not_listed.
  rewrite !lookup_fluid_layer by done.
  split.
  - intros Hge. apply float_leb_not_ltb in Hge. rewrite Hge.
    split; [by simplify_map_eq | exact Lob].
  - intros Hlt. rewrite Hlt.
    split; [by simplify_map_eq|]. split; [apply lookup_insert_eq|].
    exists hsq. split; [exact Hsq | by simplify_map_eq].
Qed.

(** A positive [Omega_nu] needs a positive mass: masses that are neither
    negative nor positive are zeros or NaNs, and so are their sum and its
    quotients. *)
Lemma omega_nu_positive_mass mnue mnum mnut hsq :
  (mnue <? 0)%float = false -> (mnum <? 0)%float = false -> (mnut <? 0)%float = false ->
  (0 <? omega_nu mnue mnum mnut hsq)%float = true ->
  (0 <? mnue)%float = true \/ (0 <? mnum)%float = true \/ (0 <? mnut)%float = true.
Proof.
  intros He Hm Ht Hpos.
  destruct (0 <? mnue)%float eqn:Pe; [by left|].
  destruct (0 <? mnum)%float eqn:Pm; [by right; left|].
  destruct (0 <? mnut)%float eqn:Pt; [by right; right|].
  exfalso.
  assert (zero_or_nan (Prim2SF (omega_nu mnue mnum mnut hsq)) = true) as Hz.
  { unfold omega_nu. do 2 apply zero_or_nan_div.
    do 2 (apply zero_or_nan_add; [|by apply zero_or_nan_intro]).
    by apply zero_or_nan_intro. }
  apply zero_or_nan_not_pos in Hz. congruence.
Qed.

(** C5 (as amended).  For every valid configuration and the parameter set
    the mapper derives from it: [Omega_nu > 0] only if one of the three
    masses is [> 0]; when [Omega_nu > 0] the set holds [N_ur = 0.00641],
    [N_ncdm = 3] and [m_ncdm], the three masses each formatted with [%.2f]
    and joined by commas; otherwise it holds [N_ur = 3.046] and none of the
    massive-neutrino entries. *)
Theorem neutrino_block_follows_omega_nu config config' gparams :
  schema_ok config = true ->
  _build_cosmology_params config = Ok (config', gparams) ->
  exists hsq,
    hubble_squared config = Ok hsq /\
    let mnue := field config "MNue" in
    let mnum := field config "MNum" in
    let mnut := field config "MNut" in
    let omeganu := omega_nu mnue mnum mnut hsq in
    ((0 <? omeganu)%float = true ->
       (0 <? mnue)%float = true \/ (0 <? mnum)%float = true \/ (0 <? mnut)%float = true) /\
    if (0 <? omeganu)%float then
      gparams !! "N_ur" = Some (VFloat 0.00641) /\
      gparams !! "N_ncdm" = Some (VInt 3) /\
      gparams !! "m_ncdm"
      = Some (VStr (fmt_2f mnue ++ "," ++ fmt_2f mnum ++ "," ++ fmt_2f mnut))
    else
      gparams !! "N_ur" = Some (VFloat 3.046) /\
      Forall (fun key => gparams !! key = None)
        ["m_ncdm"; "N_ncdm"; "tol_ncdm_newtonian"; "tol_ncdm_synchronous";
         "tol_ncdm_bg"; "l_max_ncdm"; "ncdm_fluid_approximation"].
Proof.
  intros Hok Hret. returned_config Hok Hret.
  exists hsq. split; [exact Hsq|].
  unfold field. rewrite Lmnue, Lmnum, Lmnut. cbv zeta.
  split; [by apply omega_nu_positive_mass|].
  rewrite !lookup_amplitude_layer by done.
  destruct (0 <? omega_nu mnue mnum mnut hsq)%float.
  - unfold neutrino_block. repeat split; by simplify_map_eq.
  - split; [by simplify_map_eq|].
    repeat (apply Forall_cons; split;
            [cbv beta; rewrite ?lookup_amplitude_layer by done; rewrite lookup_insert_ne by done;
             rewrite lookup_fluid_layer by done; by simplify_map_eq |]).
    by apply Forall_nil.
Qed.

(** C6.  For every valid configuration, the parameter set the mapper
    derives holds exactly one of [sigma8] and [A_s]: [sigma8 = Sigma8] and
    no [A_s] when [Sigma8 > 0], and otherwise [A_s = PrimordialAmp] and no
    [sigma8]. *)
Theorem one_amplitude_key config config' gparams :
  schema_ok config = true ->
  _build_cosmology_params config = Ok (config', gparams) ->
  let s8 := field config "Sigma8" in
  if (0 <? s8)%float then
    gparams !! "sigma8" = Some (VFloat s8) /\ gparams !! "A_s" = None
  else
    gparams !! "A_s" = Some (VFloat (field config "PrimordialAmp")) /\
    gparams !! "sigma8" = None.
Proof.
  intros Hok Hret. returned_config Hok Hret.
  unfold field. rewrite Ls8, Lamp. cbv zeta.
  destruct (0 <? s8)%float.
  - split; [apply lookup_insert_eq|].
    rewrite lookup_insert_ne by done.
    rewrite lookup_neutrino_layer by not_listed.
    rewrite lookup_fluid_layer by done. by simplify_map_eq.
  - split; [apply lookup_insert_eq|].
    rewrite lookup_insert_ne by done.
    rewrite lookup_neutrino_layer by not_listed.
    rewrite lookup_fluid_layer by done. by simplify_map_eq.
Qed.

End MapperClaims.

(** *** The mapper on the samples *)

(** C3, the claim as stated fails.  With Omega0 = 0.9, OmegaBaryon = 0.2, no
    neutrino mass and HubbleParam = 1 the mapper returns [Omega_cdm = 0.7]
    and [Omega_b = 0.2], and [Omega_nu] is 0; in double arithmetic their sum
    is 0.8999999999999999 in either grouping, which is not 0.9. *)
Lemma density_sum_is_not_exact :
  schema_ok dense_config = true /\
  field dense_config "Omega0" = 0.9%float /\
  omega_nu (field dense_config "MNue") (field dense_config "MNum")
    (field dense_config "MNut") 1 = 0%float /\
  @mapped reference_runtime dense_config "Omega_cdm" = Some (VFloat 0.7) /\
  @mapped reference_runtime dense_config "Omega_b" = Some (VFloat 0.2) /\
  (0.7 + 0.2 + 0 =? 0.9)%float = false /\
  (0.7 + (0.2 + 0) =? 0.9)%float = false.
Proof. repeat split; vm_compute; reflexivity. Qed.

(** The mapper does derive a parameter set from [dense_config] and from
    the sample, and the theorems apply to it. *)
Lemma cdm_density_is_remainder_witness :
  match @_build_cosmology_params reference_runtime dense_config with
  | Ok (config', gparams) =>
      exists hsq,
        @hubble_squared reference_runtime dense_config = Ok hsq /\
        let ob' := effective_baryon (field dense_config "OmegaBaryon") in
        let omeganu := omega_nu (field dense_config "MNue") (field dense_config "MNum")
                         (field dense_config "MNut") hsq in
        gparams !! "Omega_b" = Some (VFloat ob') /\
        gparams !! "Omega_cdm" = Some (VFloat (field dense_config "Omega0" - ob' - omeganu))
  | Raise _ => False
  end.
Proof.
  assert (is_ok (@_build_cosmology_params reference_runtime dense_config) = true) as Hret
    by (vm_compute; reflexivity).
  destruct (@_build_cosmology_params reference_runtime dense_config)
    as [[config' gparams]|e] eqn:Hbuild; [|discriminate Hret].
  apply (cdm_density_is_remainder (rt := reference_runtime) dense_config config' gparams);
    [vm_compute; reflexivity | exact Hbuild].
Defined.

Lemma baryon_fraction_floor_witness :
  match @_build_cosmology_params reference_runtime sample_config with
  | Ok (config', gparams) =>
      let ob := field sample_config "OmegaBaryon" in
      ((0.001 <=? ob)%float = true ->
         gparams !! "Omega_b" = Some (VFloat ob) /\
         config' !! "OmegaBaryon" = Some (VFloat ob)) /\
      ((ob <? 0.001)%float = true ->
         gparams !! "Omega_b" = Some (VFloat 0.0486) /\
         config' !! "OmegaBaryon" = Some (VFloat 0.0486) /\
         exists hsq,
           @hubble_squared reference_runtime sample_config = Ok hsq /\
           gparams !! "Omega_cdm"
           = Some (VFloat (field sample_config "Omega0" - 0.0486
                           - omega_nu (field sample_config "MNue") (field sample_config "MNum")
                               (field sample_config "MNut") hsq)))
  | Raise _ => False
  end.
Proof.
  assert (is_ok (@_build_cosmology_params reference_runtime sample_config) = true) as Hret
    by (vm_compute; reflexivity).
  destruct (@_build_cosmology_params reference_runtime sample_config)
    as [[config' gparams]|e] eqn:Hbuild; [|discriminate Hret].
  apply (baryon_fraction_floor (rt := reference_runtime) sample_config config' gparams);
    [vm_compute; reflexivity | exact Hbuild].
Defined.

(** C5, the claim as stated fails.  A mass of 5e-324 eV is [> 0], yet
    [5e-324 / 93.14] rounds to zero: [Omega_nu] is 0, and the mapper sets
    [N_ur = 3.046] and no [m_ncdm]. *)
Lemma positive_mass_without_neutrino_block :
  schema_ok tiny_mass_config = true /\
  (0 <? field tiny_mass_config "MNue")%float = true /\
  (0 <? omega_nu (field tiny_mass_config "MNue") (field tiny_mass_config "MNum")
          (field tiny_mass_config "MNut") (0.697 * 0.697))%float = false /\
  @mapped reference_runtime tiny_mass_config "N_ur" = Some (VFloat 3.046) /\
  @mapped reference_runtime tiny_mass_config "N_ncdm" = None /\
  @mapped reference_runtime tiny_mass_config "m_ncdm" = None /\
  @mapped reference_runtime tiny_mass_config "h" = Some (VFloat 0.697).
Proof. repeat split; vm_compute; reflexivity. Qed.

(** The sample with one neutrino of 0.06 eV. *)
Lemma neutrino_block_follows_omega_nu_witness :
  let config := <["MNue" := VFloat 0.06]> sample_config in
  match @_build_cosmology_params reference_runtime config with
  | Ok (config', gparams) =>
      exists hsq,
        @hubble_squared reference_runtime config = Ok hsq /\
        let mnue := field config "MNue" in
        let mnum := field config "MNum" in
        let mnut := field config "MNut" in
        let omeganu := omega_nu mnue mnum mnut hsq in
        ((0 <? omeganu)%float = true ->
           (0 <? mnue)%float = true \/ (0 <? mnum)%float = true \/ (0 <? mnut)%float = true) /\
        if (0 <? omeganu)%float then
          gparams !! "N_ur" = Some (VFloat 0.00641) /\
          gparams !! "N_ncdm" = Some (VInt 3) /\
          gparams !! "m_ncdm"
          = Some (VStr (@fmt_2f reference_runtime mnue ++ ","
                        ++ @fmt_2f reference_runtime mnum ++ ","
                        ++ @fmt_2f reference_runtime mnut))
        else
          gparams !! "N_ur" = Some (VFloat 3.046) /\
          Forall (fun key => gparams !! key = None)
            ["m_ncdm"; "N_ncdm"; "tol_ncdm_newtonian"; "tol_ncdm_synchronous";
             "tol_ncdm_bg"; "l_max_ncdm"; "ncdm_fluid_approximation"]
  | Raise _ => False
  end.
Proof.
  intros config.
  assert (is_ok (@_build_cosmology_params reference_runtime config) = true) as Hret
    by (vm_compute; reflexivity).
  destruct (@_build_cosmology_params reference_runtime config)
    as [[config' gparams]|e] eqn:Hbuild; [|discriminate Hret].
  apply (neutrino_block_follows_omega_nu (rt := reference_runtime) config config' gparams);
    [vm_compute; reflexivity | exact Hbuild].
Defined.

Lemma one_amplitude_key_witness :
  match @_build_cosmology_params reference_runtime sample_config with
  | Ok (config', gparams) =>
      let s8 := field sample_config "Sigma8" in
      if (0 <? s8)%float then
        gparams !! "sigma8" = Some (VFloat s8) /\ gparams !! "A_s" = None
      else
        gparams !! "A_s" = Some (VFloat (field sample_config "PrimordialAmp")) /\
        gparams !! "sigma8" = None
  | Raise _ => False
  end.
Proof.
  assert (is_ok (@_build_cosmology_params reference_runtime sample_config) = true) as Hret
    by (vm_compute; reflexivity).
  destruct (@_build_cosmology_params reference_runtime sample_config)
    as [[config' gparams]|e] eqn:Hbuild; [|discriminate Hret].
  apply (one_amplitude_key (rt := reference_runtime) sample_config config' gparams);
    [vm_compute; reflexivity | exact Hbuild].
Defined.

(** ** Runs as extensions of the world *)

Section Extends.
Context {rt : Runtime} (P : event -> Prop).

Lemma extends_refl w : extends P w w.
Proof. split; [done|]. exists []. by rewrite app_nil_r. Qed.

Lemma extends_trans w1 w2 w3 : extends P w1 w2 -> extends P w2 w3 -> extends P w1 w3.
Proof.
  intros [Hf1 (t1 & Ht1 & HP1)] [Hf2 (t2 & Ht2 & HP2)]. split; [by etrans|].
  exists (t1 ++ t2)%list. split; [by rewrite Ht2, Ht1, app_assoc | by apply Forall_app].
Qed.

Lemma extends_log e w : P e -> extends P w (World (files w) (trace w ++ [e])%list).
Proof. intros He. split; [done|]. exists [e]. split; [done | by apply Forall_singleton]. Qed.

Lemma respects_ret {A} (a : A) : respects P (mret a).
Proof. intros w. apply extends_refl. Qed.

Lemma respects_raise {A} e : respects P (raise e : M A).
Proof. intros w. apply extends_refl. Qed.

Lemma respects_lift {A} (r : result A) : respects P (lift r).
Proof. intros w. apply extends_refl. Qed.

Lemma respects_gets {A} (f : world -> A) : respects P (gets f).
Proof. intros w. apply extends_refl. Qed.

Lemma respects_log e : P e -> respects P (log e).
Proof. intros He w. by apply extends_log. Qed.

Lemma respects_bind {A B} (m : M A) (k : A -> M B) :
  respects P m -> (forall a, respects P (k a)) -> respects P (m ≫= k).
Proof.
  intros Hm Hk w. unfold mbind, M_bind. specialize (Hm w).
  destruct (m w) as [[a|e] w1]; simpl in *; [|done].
  eapply extends_trans; [exact Hm | apply Hk].
Qed.

Lemma respects_bind_lift {A B} (r : result A) (k : A -> M B) :
  (forall a, r = Ok a -> respects P (k a)) -> respects P (lift r ≫= k).
Proof.
  intros Hk w. unfold mbind, M_bind, lift. destruct r as [a|e]; simpl; [by apply Hk|].
  apply extends_refl.
Qed.

Lemma respects_os_path_exists p : P (EvExists p) -> respects P (os_path_exists p).
Proof. intros HP. apply respects_bind; [by apply respects_log | intros; apply respects_gets]. Qed.

Lemma write_file_run p c w :
  write_file p c w
  = match create_error (files w) p with
    | Some e => (Raise e, w)
    | None => (Ok tt, World (<[resolve p := c]> (files w)) (trace w ++ [EvWrite p])%list)
    end.
Proof. unfold write_file, mbind, M_bind, gets. by destruct (create_error _ _). Qed.

Lemma touches_write_file p c : P (EvWrite p) -> touches P (resolve p) (write_file p c).
Proof.
  intros HP w. rewrite write_file_run. destruct (create_error _ _); simpl.
  - split; [by left|]. exists []. by rewrite app_nil_r.
  - split; [right; by exists c|].
    exists [EvWrite p]. split; [done | by apply Forall_singleton].
Qed.

Lemma touches_raise {A} p e : touches P p (raise e : M A).
Proof. intros w. split; [by left|]. exists []. by rewrite app_nil_r. Qed.

(** The guard of every write: the path is tested, and written only when it
    does not exist. *)
Lemma respects_guarded_bind {A B} p x (m : M A) (k : A -> M B) :
  P (EvExists p) -> touches P (resolve p) m -> (forall a, respects P (k a)) ->
  respects P (e ← os_path_exists p; if (e : bool) then raise x else m ≫= k).
Proof.
  intros HP Hm Hk w. unfold mbind, M_bind, os_path_exists, log, gets, raise. simpl.
  case_bool_decide as Hp; simpl; [by apply extends_log|].
  set (w1 := World (files w) (trace w ++ [EvExists p])%list).
  destruct (Hm w1) as [Hf (t & Ht & HPt)].
  assert (extends P w (m w1).2) as Hw.
  { split.
    - destruct Hf as [-> | [c ->]]; [done|].
      apply insert_subseteq. by apply eq_None_not_Some.
    - exists (EvExists p :: t). split; [|by apply Forall_cons].
      rewrite Ht. subst w1. simpl. by rewrite <- app_assoc. }
  destruct (m w1) as [[a|e] w2]; simpl in *; [|done].
  eapply extends_trans; [exact Hw | apply Hk].
Qed.

Lemma respects_guarded {A} p x (m : M A) :
  P (EvExists p) -> touches P (resolve p) m ->
  respects P (e ← os_path_exists p; if (e : bool) then raise x else m).
Proof.
  intros HP Hm w. unfold mbind, M_bind, os_path_exists, log, gets, raise. simpl.
  case_bool_decide as Hp; simpl; [by apply extends_log|].
  set (w1 := World (files w) (trace w ++ [EvExists p])%list).
  destruct (Hm w1) as [Hf (t & Ht & HPt)].
  split.
  - destruct Hf as [-> | [c ->]]; [done|].
    apply insert_subseteq. by apply eq_None_not_Some.
  - exists (EvExists p :: t). split; [|by apply Forall_cons].
    rewrite Ht. subst w1. simpl. by rewrite <- app_assoc.
Qed.

Lemma extends_mono (P' : event -> Prop) w w' :
  (forall e, P e -> P' e) -> extends P w w' -> extends P' w w'.
Proof.
  intros HPP [Hf (t & Ht & HPt)]. split; [done|]. exists t. split; [done|].
  eapply Forall_impl; eauto.
Qed.

End Extends.

(** ** Strings and paths *)

Section Outputs.
Context {rt : Runtime}.

Lemma append_cons c (s t : string) : String c s ++ t = String c (s ++ t).
Proof. reflexivity. Qed.

Lemma string_app_nil_r (s : string) : s ++ "" = s.
Proof. induction s as [|c s IH]; [done | by rewrite append_cons, IH]. Qed.

Lemma string_app_assoc (s t u : string) : (s ++ t) ++ u = s ++ (t ++ u).
Proof. induction s as [|c s IH]; [done | by rewrite !append_cons, IH]. Qed.

Lemma string_app_length (s t : string) :
  String.length (s ++ t) = (String.length s + String.length t)%nat.
Proof. induction s as [|c s IH]; [done | rewrite append_cons; simpl; by rewrite IH]. Qed.

Lemma suffixed_name config key red n :
  suffixed config key red = Ok n ->
  exists name, config !! key = Some (VStr name) /\ n = name ++ ("-" ++ py_str red).
Proof.
  unfold suffixed, getitem. destruct (config !! key) as [v|]; [|done]. simpl.
  destruct v as [s|z|f|xs|xs]; simpl; try done.
  - intros [= <-]. eexists. split; [done|]. by rewrite string_app_assoc.
  - unfold as_float. destruct (float_of_int z); done.
Qed.

Lemma output_path_plain config sdir key name :
  key ∈ ["FileWithTransferFunction"; "FileWithInputSpectrum"] ->
  config !! key = Some (VStr name) -> output_path config sdir (os_path_join sdir name).
Proof. intros. exists key, name, "". by rewrite string_app_nil_r. Qed.

Lemma output_path_suffixed config sdir key red n :
  key ∈ ["FileWithTransferFunction"; "FileWithInputSpectrum"] ->
  suffixed config key red = Ok n -> output_path config sdir (os_path_join sdir n).
Proof.
  intros Hkey (name & Hname & ->)%suffixed_name. by exists key, name, ("-" ++ py_str red).
Qed.

Lemma touches_save_power P p k pk :
  P (EvWrite p) -> touches P (resolve p) (save_power p k pk).
Proof.
  intros HP. unfold save_power. destruct (_ =? _)%nat; [by apply touches_write_file | apply touches_raise].
Qed.

Lemma respects_query_transfer P powspec z :
  P (EvGetTransfer z) -> respects P (query_transfer powspec z).
Proof. intros. apply respects_bind; [by apply respects_log | intros; apply respects_lift]. Qed.

Lemma respects_query_pklin P powspec k z :
  P (EvGetPklin k z) -> respects P (query_pklin powspec k z).
Proof. intros. apply respects_bind; [by apply respects_log | intros; apply respects_lift]. Qed.

Lemma getitem_str config key v name :
  getitem config key = Ok v -> as_str v = Ok name -> config !! key = Some (VStr name).
Proof.
  unfold getitem. destruct (config !! key) as [v'|]; [|done]. intros [= ->].
  destruct v; simpl; congruence.
Qed.

Lemma extraz_loop_respects config powspec sdir reds :
  respects (output_event config sdir) (extraz_loop config powspec sdir reds).
Proof.
  induction reds as [|red reds IH]; simpl; [apply respects_ret|].
  apply respects_bind; [by apply respects_query_transfer|]. intros trans.
  apply respects_bind_lift. intros tname Htname.
  apply respects_guarded_bind.
  - eapply output_path_suffixed; [|done]. set_solver.
  - apply touches_write_file. eapply output_path_suffixed; [|done]. set_solver.
  - intros _. apply respects_bind_lift. intros k _.
    apply respects_bind; [by apply respects_query_pklin|]. intros pk_lin.
    apply respects_bind_lift. intros pname Hpname.
    apply respects_guarded_bind.
    + eapply output_path_suffixed; [|done]. set_solver.
    + apply touches_save_power. eapply output_path_suffixed; [|done]. set_solver.
    + intros _. apply IH.
Qed.

Lemma write_outputs_respects config powspec sdir redshift extraz :
  respects (output_event config sdir) (write_outputs config powspec sdir redshift extraz).
Proof.
  unfold write_outputs.
  apply respects_bind_lift. intros z _.
  apply respects_bind; [by apply respects_query_transfer|]. intros trans.
  apply respects_bind_lift. intros dtf _.
  apply respects_bind.
  { destruct (py_eq_one dtf); [|apply respects_ret].
    apply respects_bind_lift. intros tf Htf.
    apply respects_bind_lift. intros tname Htname.
    pose proof (getitem_str _ _ _ _ Htf Htname) as Hname.
    apply respects_guarded.
    - eapply output_path_plain; [|done]. set_solver.
    - apply touches_write_file. eapply output_path_plain; [|done]. set_solver. }
  intros _. apply respects_bind_lift. intros k _.
  apply respects_bind; [by apply respects_query_pklin|]. intros pk_lin.
  apply respects_bind_lift. intros sp Hsp.
  apply respects_bind_lift. intros pname Hpname.
  pose proof (getitem_str _ _ _ _ Hsp Hpname) as Hname.
  apply respects_guarded_bind.
  - eapply output_path_plain; [|done]. set_solver.
  - apply touches_save_power. eapply output_path_plain; [|done]. set_solver.
  - intros _. destruct extraz; [apply extraz_loop_respects | apply respects_ret].
Qed.
End Outputs.

(** ** Validation as a fold over the configspec *)

Section Validate.
Context {rt : Runtime}.

Lemma validate_entry_lookup acc key chk k :
  (validate_entry acc (key, chk)).1 !! k
  = if decide (k = key) then entry_value chk (acc.1 !! key) else acc.1 !! k.
Proof.
  destruct acc as [config failed]. simpl. unfold entry_value.
  destruct (config !! key) as [v|] eqn:Hkey.
  - destruct (check_value chk v) as [v'|]; simpl.
    + case_decide as Hk; [subst; by rewrite lookup_insert_eq | by rewrite lookup_insert_ne].
    + case_decide as Hk; [by subst | done].
  - destruct (default_value chk) as [d|]; simpl.
    + case_decide as Hk; [subst; by rewrite lookup_insert_eq | by rewrite lookup_insert_ne].
    + case_decide as Hk; [by subst | done].
Qed.

Lemma foldl_validate_other spec acc key :
  key ∉ spec.*1 -> (foldl validate_entry acc spec).1 !! key = acc.1 !! key.
Proof.
  revert acc. induction spec as [|[k chk] spec IH]; intros acc Hk; [done|].
  simpl. rewrite IH by set_solver. rewrite validate_entry_lookup.
  case_decide as Heq; [|done]. subst. set_solver.
Qed.

Lemma foldl_validate_lookup spec acc key chk :
  NoDup spec.*1 -> (key, chk) ∈ spec ->
  (foldl validate_entry acc spec).1 !! key = entry_value chk (acc.1 !! key).
Proof.
  revert acc. induction spec as [|[k c] spec IH]; intros acc Hnd Hin; [by apply elem_of_nil in Hin|].
  simpl in *. apply NoDup_cons in Hnd as [Hk Hnd].
  apply elem_of_cons in Hin as [[= -> ->] | Hin].
  - rewrite foldl_validate_other by done. rewrite validate_entry_lookup.
    case_decide; done.
  - rewrite IH by done. rewrite validate_entry_lookup.
    case_decide as Heq; [|done]. subst. exfalso. apply Hk.
    by apply (list_elem_of_fmap_2 fst _ (k, chk)).
Qed.

Lemma GenICconfigspec_NoDup : NoDup GenICconfigspec.*1.
Proof. apply (bool_decide_unpack _). vm_compute. reflexivity. Qed.

(** After [config.validate] a key of the configspec holds the converted
    value, the default, or the value that failed. *)
Lemma validate_lookup config key chk :
  (key, chk) ∈ GenICconfigspec ->
  (validate config).1 !! key = entry_value chk (config !! key).
Proof. intros. unfold validate. by rewrite (foldl_validate_lookup _ _ _ chk GenICconfigspec_NoDup). Qed.

Lemma check_value_conforms chk v v' :
  check_value chk v = Some v' -> conforms chk v' = true.
Proof.
  destruct chk as [d|vmin vmax d|vmin vmax d]; simpl.
  - destruct v; intros [= <-]; reflexivity.
  - destruct (match v with VInt n => Some n | VStr s => py_int s | _ => None end) as [n|];
      simpl; [|discriminate].
    destruct (int_in_range vmin vmax n) eqn:Hr; intros [= <-]; exact Hr.
  - destruct (match v with
              | VFloat f => Some f
              | VInt n => match float_of_int n with Ok f => Some f | Raise _ => None end
              | VStr s => py_float s
              | _ => None
              end) as [f|]; simpl; [|discriminate].
    destruct (float_in_range vmin vmax f) eqn:Hr; intros [= <-]; exact Hr.
Qed.

Lemma validate_entry_pass acc entry :
  default_conforms entry = true ->
  (validate_entry acc entry).2 = [] ->
  acc.2 = [] /\
  exists v, (validate_entry acc entry).1 !! entry.1 = Some v /\ conforms entry.2 v = true.
Proof.
  destruct acc as [config failed], entry as [key chk]. unfold default_conforms. simpl.
  intros Hdef.
  destruct (config !! key) as [v|].
  - destruct (check_value chk v) as [v'|] eqn:Hv; simpl.
    + intros ->. split; [done|]. exists v'. rewrite lookup_insert_eq.
      split; [done|]. by eapply check_value_conforms.
    + intros [_ [=]]%app_eq_nil.
  - destruct (default_value chk) as [d|]; simpl.
    + intros ->. split; [done|]. exists d. by rewrite lookup_insert_eq.
    + intros [_ [=]]%app_eq_nil.
Qed.

Lemma foldl_validate_pass spec acc :
  NoDup spec.*1 -> forallb default_conforms spec = true ->
  (foldl validate_entry acc spec).2 = [] ->
  acc.2 = [] /\
  forall entry, entry ∈ spec ->
    exists v, (foldl validate_entry acc spec).1 !! entry.1 = Some v /\
              conforms entry.2 v = true.
Proof.
  revert acc. induction spec as [|e spec IH]; intros acc Hnd Hdef Hfail; simpl in *.
  - split; [done|]. intros entry Hin. by apply elem_of_nil in Hin.
  - apply NoDup_cons in Hnd as [Hk Hnd]. apply andb_true_iff in Hdef as [He Hdef].
    destruct (IH _ Hnd Hdef Hfail) as [Hacc Hrest].
    destruct (validate_entry_pass _ _ He Hacc) as [Hnil (v & Hv & Hc)].
    split; [done|]. intros entry [-> | Hin]%elem_of_cons; [|by apply Hrest].
    exists v. split; [|done]. by rewrite foldl_validate_other.
Qed.

(** A configuration that validation passes without a failed key is valid. *)
Lemma validate_schema_ok config :
  (validate config).2 = [] -> schema_ok (validate config).1 = true.
Proof.
  intros Hfail. unfold schema_ok. apply forallb_forall. intros entry Hin.
  destruct (foldl_validate_pass GenICconfigspec (config, []) GenICconfigspec_NoDup
              ltac:(vm_compute; reflexivity) Hfail) as [_ Hall].
  destruct (Hall entry) as (v & Hv & Hc); [by apply list_elem_of_In|].
  fold (validate config) in Hv. by rewrite Hv.
Qed.
End Validate.

(** ** The startup check *)

Section Check.
Context {rt : Runtime}.

Lemma trace_snoc_fmap (t : list event) p ps :
  ((t ++ [EvExists p]) ++ (EvExists <$> ps) = t ++ (EvExists <$> (p :: ps)))%list.
Proof. by rewrite <- app_assoc. Qed.

(** The file checks test paths only and change no file.  They pass when
    every file name is set and free, and otherwise they raise the [IOError]
    of the first key whose name is not. *)
Lemma check_savefiles_outcome config filekeys w :
  Forall (fun key => exists name, config !! key = Some (VStr name)) filekeys ->
  exists r ps,
    check_savefiles config filekeys w
    = (r, World (files w) (trace w ++ (EvExists <$> ps))%list) /\
    (forallb (savefile_free (files w) config) filekeys = true -> r = Ok tt) /\
    (forall before key after name,
       filekeys = (before ++ key :: after)%list ->
       forallb (savefile_free (files w) config) before = true ->
       config !! key = Some (VStr name) ->
       (name = "" -> r = Raise (IOError ["No savefile specified for "; key])) /\
       (name <> "" -> is_Some (files w !! resolve name) ->
          r = Raise (IOError ["Refusing to write to existing file: "; name]))).
Proof.
  revert w. induction filekeys as [|ff rest IH]; intros w Hstr.
  - exists (Ok tt), []. simpl. rewrite app_nil_r. split; [by destruct w|]. split; [done|].
    intros [|b before] key after name Heq; discriminate Heq.
  - apply Forall_cons in Hstr as [(name0 & Hname) Hstr].
    assert (savefile_free (files w) config ff
            = negb (bool_decide (name0 = ""))
              && negb (bool_decide (is_Some (files w !! resolve name0)))) as Hfree0.
    { unfold savefile_free. by rewrite Hname. }
    simpl. unfold mbind, M_bind, lift, getitem. rewrite Hname. simpl.
    case_decide as Hempty; simpl.
    { assert (savefile_free (files w) config ff = false) as Hff.
      { rewrite Hfree0, bool_decide_eq_true_2 by done. done. }
      exists (Raise (IOError ["No savefile specified for "; ff])), [].
      unfold raise. rewrite Hff. cbn [fmap list_fmap andb]. rewrite app_nil_r.
      split; [by destruct w|]. split; [discriminate|].
      intros [|b before] key after name [= <- Hrest] Hbefore Hkey.
      - rewrite Hname in Hkey. injection Hkey as <-. split; [done | by intros []].
      - simpl in Hbefore. rewrite Hff in Hbefore. discriminate Hbefore. }
    rewrite (bool_decide_eq_false_2 _ Hempty) in Hfree0.
    destruct (bool_decide (is_Some (files w !! resolve name0))) eqn:Hex;
      cbn [negb andb] in Hfree0; cbv beta iota.
    { apply bool_decide_eq_true_1 in Hex.
      exists (Raise (IOError ["Refusing to write to existing file: "; name0])), [name0].
      unfold raise. rewrite Hfree0. cbn [fmap list_fmap andb].
      split; [reflexivity|]. split; [discriminate|].
      intros [|b before] key after name [= <- Hrest] Hbefore Hkey.
      - rewrite Hname in Hkey. injection Hkey as <-. split; [by intros ?|done].
      - simpl in Hbefore. rewrite Hfree0 in Hbefore. discriminate Hbefore. }
    apply bool_decide_eq_false_1 in Hex.
    destruct (IH (World (files w) (trace w ++ [EvExists name0])%list) Hstr)
      as (r & ps & Hrun & Hpass & Hfail).
    exists r, (name0 :: ps). rewrite Hrun. cbn [files trace] in *. rewrite trace_snoc_fmap.
    rewrite Hfree0. cbn [andb].
    split; [reflexivity|]. split; [exact Hpass|].
    intros [|b before] key after name [= <- Hrest] Hbefore Hkey.
    + rewrite Hname in Hkey. injection Hkey as <-. split; [by intros ?|by intros _ ?].
    + simpl in Hbefore. rewrite Hfree0 in Hbefore. simpl in Hbefore. by eapply Hfail.
Qed.

(** An unsupported configuration makes the check raise: the [IOError] of
    the first file check that fails, and the [ValueError] of the policy when
    none does. *)
Lemma check_genic_config_unsupported config0 w dtf :
  let config := (validate config0).1 in
  (exists s, config !! "FileWithInputSpectrum" = Some (VStr s)) ->
  (exists s, config !! "FileWithTransferFunction" = Some (VStr s)) ->
  config !! "DifferentTransferFunctions" = Some dtf ->
  unsupported config = true ->
  exists e ps,
    _check_genic_config config0 w
    = (Raise e, World (files w) (trace w ++ (EvExists <$> ps))%list) /\
    (forallb (savefile_free (files w) config) (filekeys dtf) = true ->
       e = ValueError (policy_message config)) /\
    (forall before key after name,
       filekeys dtf = (before ++ key :: after)%list ->
       forallb (savefile_free (files w) config) before = true ->
       config !! key = Some (VStr name) ->
       (name = "" -> e = IOError ["No savefile specified for "; key]) /\
       (name <> "" -> is_Some (files w !! resolve name) ->
          e = IOError ["Refusing to write to existing file: "; name])).
Proof.
  intros config Hsp Htf Hdtf Hbad.
  unfold _check_genic_config. subst config.
  destruct (validate config0) as [config failed]. cbn [fst] in *.
  unfold unsupported in Hbad. unfold policy_message.
  destruct (config !! "MWDM_Therm") as [[| |m| |]|] eqn:Hm; try discriminate Hbad.
  assert (Forall (fun key => exists name, config !! key = Some (VStr name)) (filekeys dtf)) as Hkeys.
  { unfold filekeys. destruct (py_eq_one dtf); simpl; repeat constructor; assumption. }
  destruct (check_savefiles_outcome config (filekeys dtf) w Hkeys)
    as (r & ps & Hrun & Hpass & Hfail).
  unfold mbind at 1, M_bind at 1, lift at 1, getitem at 1. rewrite Hdtf.
  cbv beta iota. unfold mbind at 1, M_bind at 1. rewrite Hrun.
  destruct r as [[]|e0].
  2:{ exists e0, ps. split; [reflexivity|]. split.
      - intros Hall. by specialize (Hpass Hall).
      - intros before key after name Heq Hbefore Hkey.
        destruct (Hfail before key after name Heq Hbefore Hkey) as [H1 H2].
        split; [intros Hn; specialize (H1 Hn) | intros Hn Hex; specialize (H2 Hn Hex)];
          congruence. }
  assert (forallb (savefile_free (files w) config) (filekeys dtf) = true) as Hall.
  { destruct (forallb _ _) eqn:Hall; [done|]. exfalso.
    clear -Hall Hfail Hkeys. revert Hall Hfail Hkeys.
    generalize (filekeys dtf). intros keys Hall Hfail Hkeys.
    assert (exists before key after, keys = (before ++ key :: after)%list /\
              forallb (savefile_free (files w) config) before = true /\
              savefile_free (files w) config key = false) as (before & key & after & -> & Hb & Hk).
    { clear Hfail Hkeys. induction keys as [|k keys IH]; [discriminate|]. simpl in Hall.
      destruct (savefile_free (files w) config k) eqn:Hk.
      - destruct (IH Hall) as (before & key & after & -> & Hb & Hkey).
        exists (k :: before), key, after. simpl. by rewrite Hk.
      - by exists [], k, keys. }
    apply Forall_app in Hkeys as [_ [(name & Hname) _]%Forall_cons].
    destruct (Hfail before key after name eq_refl Hb Hname) as [H1 H2].
    unfold savefile_free in Hk. rewrite Hname in Hk.
    case_bool_decide as Hn; [by specialize (H1 Hn)|].
    case_bool_decide as Hex; [by specialize (H2 Hn Hex) | discriminate Hk]. }
  unfold mbind, M_bind, lift, getitem. rewrite Hm, Hdtf. simpl.
  destruct (0 <? m)%float eqn:Hwarm; simpl.
  { eexists _, ps. split; [reflexivity|]. split; [done|].
    intros before key after name Heq Hbefore Hkey.
    destruct (Hfail before key after name Heq Hbefore Hkey) as [H1 H2].
    split; [intros Hn; by specialize (H1 Hn) | intros Hn Hex; by specialize (H2 Hn Hex)]. }
  simpl in Hbad. rewrite Hdtf in Hbad.
  destruct dtf as [|n| | |]; try discriminate Hbad.
  destruct (config !! "InputPowerRedshift") as [[| |z| |]|] eqn:Hz; try discriminate Hbad.
  apply andb_true_iff in Hbad as [Hone Hge]. simpl. rewrite Hone. simpl.
  rewrite Hge. simpl.
  eexists _, ps. split; [reflexivity|]. split; [done|].
  intros before key after name Heq Hbefore Hkey.
  destruct (Hfail before key after name Heq Hbefore Hkey) as [H1 H2].
  split; [intros Hn; by specialize (H1 Hn) | intros Hn Hex; by specialize (H2 Hn Hex)].
Qed.
End Check.

(** ** Whole runs *)

Section Run.
Context {rt : Runtime}.

Lemma respects_mono {A} (P P' : event -> Prop) (m : M A) :
  (forall e, P e -> P' e) -> respects P m -> respects P' m.
Proof. intros HPP Hm w. eapply extends_mono; [exact HPP | apply Hm]. Qed.

Lemma check_savefiles_respects config keys :
  keys ⊆ ["FileWithTransferFunction"; "FileWithInputSpectrum"] ->
  respects (startup_event config) (check_savefiles config keys).
Proof.
  induction keys as [|ff rest IH]; intros Hsub; simpl; [apply respects_ret|].
  apply respects_bind_lift. intros v Hv.
  destruct (py_eq_empty v); [apply respects_raise|].
  apply respects_bind_lift. intros p Hp.
  apply respects_bind.
  - apply respects_os_path_exists. exists ff, p. split; [done|]. split; [set_solver|].
    by eapply getitem_str.
  - intros [|]; [apply respects_raise | apply IH; set_solver].
Qed.

Lemma check_genic_config_respects config0 :
  respects (startup_event (validate config0).1) (_check_genic_config config0).
Proof.
  unfold _check_genic_config. destruct (validate config0) as [config failed]. cbn [fst].
  apply respects_bind_lift. intros dtf _.
  apply respects_bind.
  { apply check_savefiles_respects. unfold filekeys. destruct (py_eq_one dtf); set_solver. }
  intros _. apply respects_bind_lift. intros mwdm _.
  apply respects_bind_lift. intros [|] _; [apply respects_raise|].
  apply respects_bind_lift. intros dtf' _.
  apply respects_bind; [|intros; apply respects_ret].
  destruct (py_eq_one dtf'); [|apply respects_ret].
  apply respects_bind_lift. intros ipr _.
  apply respects_bind_lift. intros [|] _; [apply respects_raise | apply respects_ret].
Qed.

Lemma ConfigObj_respects P paramfile :
  P (EvRead paramfile) -> respects P (ConfigObj paramfile).
Proof.
  intros HP. unfold ConfigObj.
  apply respects_bind; [by apply respects_log|]. intros _.
  apply respects_bind; [apply respects_gets|]. intros [[]|];
    first [apply respects_ret | apply respects_raise].
Qed.

(** Every run extends the world it starts from: no file that exists is
    replaced, the parameter file is the only file read, and the engine is
    started with the result of [solver_params]. *)
Lemma make_class_power_respects paramfile external_pk extraz verbose :
  respects (run_event paramfile external_pk extraz verbose)
    (make_class_power paramfile external_pk extraz verbose).
Proof.
  unfold make_class_power.
  apply respects_bind; [by apply ConfigObj_respects|]. intros config0.
  apply respects_bind.
  { eapply respects_mono; [|apply check_genic_config_respects].
    by intros e (key & name & -> & _). }
  intros config1. apply respects_bind_lift. intros [config gparams] _.
  apply respects_bind_lift. intros redshift _.
  apply respects_bind_lift. intros pre_params Hpre.
  apply respects_bind.
  { apply respects_bind; [|intros; apply respects_lift].
    apply respects_log. simpl. eauto. }
  intros powspec. eapply respects_mono; [|apply write_outputs_respects].
  intros [] He; simpl in *; done.
Qed.

Lemma omap_exists_nil {A} (f : event -> option A) ps :
  (forall p, f (EvExists p) = None) -> omap f (EvExists <$> ps) = [].
Proof. intros Hf. induction ps as [|p ps IH]; simpl; [done|]. by rewrite Hf. Qed.

(** A parameter file gives the two file keys strs and the transfer-function
    switch a value. *)
Lemma validate_file_keys (lines : gmap string string) :
  let config := (validate (VStr <$> lines)).1 in
  (exists s, config !! "FileWithInputSpectrum" = Some (VStr s)) /\
  (exists s, config !! "FileWithTransferFunction" = Some (VStr s)) /\
  is_Some (config !! "DifferentTransferFunctions").
Proof.
  cbv zeta. split; [|split].
  - rewrite (validate_lookup _ _ (string_check (Some ""))) by set_solver.
    rewrite lookup_fmap. destruct (lines !! _); simpl; eauto.
  - rewrite (validate_lookup _ _ (string_check (Some ""))) by set_solver.
    rewrite lookup_fmap. destruct (lines !! _); simpl; eauto.
  - rewrite (validate_lookup _ _ (integer_check (Some 0%Z) (Some 1%Z) (Some 1%Z))) by set_solver.
    rewrite lookup_fmap. destruct (lines !! _); simpl; eauto.
Qed.


(** C7 (as amended).  For every parameter file, with values that are read
    as they are written, whose validated configuration has [MWDM_Therm > 0],
    or has [DifferentTransferFunctions = 1] together with
    [InputPowerRedshift >= 0], the run ends in the check step with an
    exception.  When the file names of the startup check are all set and
    free it is the [ValueError] of the policy; otherwise it is the [IOError]
    of the first file check that fails: no savefile specified for the key
    whose name is empty, or the refusal to write to its name when that file
    exists.  No file is written or changed and the engine is not started. *)
Theorem unsupported_configuration_aborts paramfile lines external_pk extraz verbose w :
  files w !! resolve paramfile = Some (ParamFile lines) ->
  plain_lines lines = true ->
  let config := (validate (VStr <$> lines)).1 in
  unsupported config = true ->
  let run := make_class_power paramfile external_pk extraz verbose w in
  (exists e, run.1 = Raise e /\
     forall dtf, config !! "DifferentTransferFunctions" = Some dtf ->
       (forallb (savefile_free (files w) config) (filekeys dtf) = true ->
          e = ValueError (policy_message config)) /\
       (forall before key after name,
          filekeys dtf = (before ++ key :: after)%list ->
          forallb (savefile_free (files w) config) before = true ->
          config !! key = Some (VStr name) ->
          (name = "" -> e = IOError ["No savefile specified for "; key]) /\
          (name <> "" -> is_Some (files w !! resolve name) ->
             e = IOError ["Refusing to write to existing file: "; name]))) /\
  files run.2 = files w /\
  engine_calls run.2 = engine_calls w /\
  written run.2 = written w.
Proof.
  intros Hfile _ config Hbad run.
  destruct (validate_file_keys lines) as (Hsp & Htf & [dtf Hdtf]).
  set (w1 := World (files w) (trace w ++ [EvRead paramfile])%list).
  destruct (check_genic_config_unsupported (VStr <$> lines) w1 dtf Hsp Htf Hdtf Hbad)
    as (e & ps & Hrun & Hpol & Hio).
  assert (run = (Raise e, World (files w) ((trace w ++ [EvRead paramfile]) ++ (EvExists <$> ps))%list))
    as ->.
  { subst run. unfold make_class_power.
    unfold mbind at 1, M_bind at 1. unfold ConfigObj, mbind at 1, M_bind at 1, log at 1.
    cbv beta iota. unfold mbind at 1, M_bind at 1, gets at 1. cbn [files]. rewrite Hfile.
    cbv beta iota. unfold mret at 1, M_ret at 1.
    cbv beta iota. unfold mbind at 1, M_bind at 1. fold w1. rewrite Hrun. reflexivity. }
  cbn [fst snd files]. split.
  { exists e. split; [done|]. intros dtf' Hdtf'. fold config in Hdtf.
    rewrite Hdtf in Hdtf'. injection Hdtf' as <-. split; [exact Hpol | exact Hio]. }
  split; [done|].
  unfold engine_calls, written. cbn [trace].
  rewrite !omap_app, !omap_exists_nil by done. cbn [omap list_omap]. by rewrite !app_nil_r.
Qed.
End Run.

(** ** The parameters handed to the solver *)

Section SolverParams.
Context {rt : Runtime}.

Lemma solver_params_inv config gparams redshift external_pk extraz verbose p :
  solver_params config gparams redshift external_pk extraz verbose = Ok p ->
  exists boxmpc maxk zmax,
    box_in_mpc config = Ok boxmpc /\
    max_wavenumber config boxmpc = Ok maxk /\
    let outputs := redshift :: from_option (fmap VFloat) [] extraz in
    np_max outputs = Ok zmax /\
    let powerparams : gmap string value :=
      <["extra metric transfer functions" := VStr "y"]>
      (<["z_pk" := VArr outputs]>
      (<["z_max_pk" := VFloat (1 + zmax)]>
      (<["P_k_max_h/Mpc" := VFloat maxk]>
      (<["output" := VStr "dTk vTk mPk"]> ∅)))) in
    let pre_params := powerparams ∪ (gparams ∪ precision_params) in
    let pre_params := if verbose then verb_params ∪ pre_params else pre_params in
    p = match external_pk with
        | Some file =>
            <["command" := VTuple [VStr "cat "; VStr file]]>
            (<["P_k_ini" := VStr "external_pk"]> pre_params)
        | None => pre_params
        end.
Proof.
  unfold solver_params. intros H.
  destruct (box_in_mpc config) as [boxmpc|]; [|done]. simpl in H.
  destruct (max_wavenumber config boxmpc) as [maxk|] eqn:Hmax; [|done]. simpl in H.
  destruct (np_max _) as [zmax|] eqn:Hz; [|done]. simpl in H.
  injection H as <-. by exists boxmpc, maxk, zmax.
Qed.

Lemma verb_params_lookup key :
  key ∉ ["input_verbose"; "background_verbose"; "thermodynamics_verbose";
         "perturbations_verbose"; "transfer_verbose"; "primordial_verbose";
         "spectra_verbose"; "nonlinear_verbose"; "lensing_verbose"; "output_verbose"] ->
  verb_params !! key = None.
Proof.
  intros Hk. unfold verb_params. apply not_elem_of_list_to_map_1.
  rewrite <- list_fmap_compose. simpl. exact Hk.
Qed.

(** C8 (as amended).  For every valid configuration, the parameters handed
    to the solver hold under [P_k_max_h/Mpc] the double
    [2 * pi / boxmpc * Ngrid * 16], computed in this order with
    [boxmpc = BoxSize / 3.085678e24 * UnitLength_in_cm]; for
    BoxSize = 100000, UnitLength_in_cm = 3.085678e21 and Ngrid = 256, [boxmpc]
    is 99.99999999999999, one unit in the last place below 100, and the
    wavenumber is 257.3592701820759, the double that [2*pi/100*256*16]
    gives too. *)
Theorem max_wavenumber_of_box config gparams redshift external_pk extraz verbose p :
  schema_ok config = true ->
  solver_params config gparams redshift external_pk extraz verbose = Ok p ->
  let boxmpc := (field config "BoxSize" / MPC_in_cm * field config "UnitLength_in_cm")%float in
  exists ngrid,
    float_of_int (int_field config "Ngrid") = Ok ngrid /\
    p !! "P_k_max_h/Mpc" = Some (VFloat (2 * math_pi / boxmpc * ngrid * 16)) /\
    (field config "BoxSize" = 100000%float ->
     field config "UnitLength_in_cm" = 3.085678e21%float ->
     int_field config "Ngrid" = 256%Z ->
     boxmpc = 99.99999999999999%float /\
     p !! "P_k_max_h/Mpc" = Some (VFloat 257.3592701820759) /\
     (2 * math_pi / 100 * 256 * 16)%float = 257.3592701820759%float).
Proof.
  intros Hok Hsolve.
  apply solver_params_inv in Hsolve as (boxmpc & maxk & zmax & Hbox & Hmax & _ & Hp).
  cbv zeta in Hp.
  float_field Hok "BoxSize" box. float_field Hok "UnitLength_in_cm" unit_cm.
  destruct (schema_ok_lookup _ "Ngrid" _ Hok ltac:(spec_member)) as (v & Lng & Cng).
  destruct v as [|n| | |]; try discriminate Cng.
  unfold box_in_mpc, getitem in Hbox. rewrite Lbox, Lunit_cm in Hbox. simpl in Hbox.
  injection Hbox as <-.
  unfold max_wavenumber, getitem, py_truediv in Hmax. rewrite Lng in Hmax.
  destruct (_ =? 0)%float; [discriminate|]. simpl in Hmax.
  destruct (float_of_int n) as [ngrid|] eqn:Hn; [|discriminate]. simpl in Hmax.
  injection Hmax as <-.
  unfold field, int_field. rewrite Lbox, Lunit_cm, Lng. cbv zeta.
  assert (p !! "P_k_max_h/Mpc"
          = Some (VFloat (2 * math_pi / (box / MPC_in_cm * unit_cm) * ngrid * 16))) as Hk.
  { subst p. destruct external_pk; [rewrite !lookup_insert_ne by done|];
      (destruct verbose;
       [rewrite lookup_union_r by (by apply verb_params_lookup; not_listed)|]);
      (erewrite lookup_union_Some_l; [reflexivity|]); by simplify_map_eq. }
  exists ngrid. split; [exact Hn|]. split; [exact Hk|].
  intros -> -> ->. rewrite Hk. vm_compute in Hn. injection Hn as <-.
  repeat split; vm_compute; reflexivity.
Qed.
End SolverParams.

(** ** The paths of the startup check and of the writes *)

Section Paths.
Context {rt : Runtime}.

(** The mapper returns the configuration it was given, but for the baryon
    fraction. *)
Lemma build_cosmology_params_config config config' gparams :
  _build_cosmology_params config = Ok (config', gparams) ->
  forall key, key <> "OmegaBaryon" -> config' !! key = config !! key.
Proof.
  unfold _build_cosmology_params, mbind, result_bind, mret, result_ret. intros H.
  repeat match type of H with
         | match ?x with _ => _ end = _ => destruct x; [|discriminate H]
         end.
  injection H as <- _. intros key Hkey.
  match goal with |- (if ?b then _ else _) !! _ = _ => destruct b end;
    [by rewrite lookup_insert_ne | done].
Qed.

Lemma string_app_eq_l (s t : string) : s ++ t = s -> t = "".
Proof.
  intros H. apply (f_equal String.length) in H. rewrite string_app_length in H.
  destruct t; [done | simpl in H; lia].
Qed.

(** Under a directory, a relative name is never the path it is joined to. *)
Lemma os_path_join_differs sdir name suffix :
  sdir <> "" -> starts_with_slash name = false ->
  os_path_join sdir (name ++ suffix) <> name.
Proof.
  intros Hdir Hrel Heq. unfold os_path_join in Heq.
  destruct (starts_with_slash (name ++ suffix)) eqn:Habs.
  { apply string_app_eq_l in Heq as ->. rewrite string_app_nil_r in Habs. congruence. }
  case_decide; [done|].
  apply (f_equal String.length) in Heq.
  destruct (ends_with_slash sdir); rewrite !string_app_length in Heq;
    destruct sdir; simpl in Heq; try done; lia.
Qed.

Lemma output_event_agree config config' sdir e :
  (forall key, key <> "OmegaBaryon" -> config' !! key = config !! key) ->
  output_event config' sdir e -> output_event config sdir e.
Proof.
  intros Hagree. destruct e; simpl; try done.
  all: intros (key & name & suffix & Hkey & Hname & ->); exists key, name, suffix;
    split; [done|]; split; [|done]; rewrite <- Hagree; [done|]; set_solver.
Qed.

(** No run replaces or removes a file that exists. *)
Lemma make_class_power_never_overwrites paramfile external_pk extraz verbose w :
  files w ⊆ files (make_class_power paramfile external_pk extraz verbose w).2.
Proof. apply (make_class_power_respects paramfile external_pk extraz verbose w). Qed.
End Paths.

(** ** Running twice *)

Lemma bind_ok_inv {A B} (m : M A) (k : A -> M B) w b w' :
  (m ≫= k) w = (Ok b, w') -> exists a w1, m w = (Ok a, w1) /\ k a w1 = (Ok b, w').
Proof.
  unfold mbind, M_bind. destruct (m w) as [[a|e] w1]; [eauto | discriminate].
Qed.

Lemma lift_ok_inv {A} (r : result A) w a w' :
  lift r w = (Ok a, w') -> r = Ok a /\ w' = w.
Proof. unfold lift. by intros [= -> ->]. Qed.

Lemma bind_run {A B} (m : M A) (k : A -> M B) w a w1 :
  m w = (Ok a, w1) -> (m ≫= k) w = k a w1.
Proof. intros H. unfold mbind, M_bind. by rewrite H. Qed.

Lemma bind_raise {A B} (m : M A) (k : A -> M B) w e w1 :
  m w = (Raise e, w1) -> (m ≫= k) w = (Raise e, w1).
Proof. intros H. unfold mbind, M_bind. by rewrite H. Qed.

Lemma bind_lift_run {A B} (r : result A) (k : A -> M B) w a :
  r = Ok a -> (lift r ≫= k) w = k a w.
Proof. intros ->. reflexivity. Qed.

Section Twice.
Context {rt : Runtime}.

Lemma os_path_exists_run p w :
  os_path_exists p w
  = (Ok (bool_decide (is_Some (files w !! resolve p))),
     World (files w) (trace w ++ [EvExists p])%list).
Proof. reflexivity. Qed.

(** File checks that passed once pass again or refuse a path that now
    exists. *)
Lemma check_savefiles_rerun config keys w w' :
  (check_savefiles config keys w).1 = Ok tt ->
  exists r w'',
    check_savefiles config keys w' = (r, w'') /\ files w'' = files w' /\
    (r = Ok tt \/ exists e, r = Raise e /\ refusal (files w') e).
Proof.
  revert w w'. induction keys as [|ff rest IH]; intros w w' Hok.
  - exists (Ok tt), w'. eauto.
  - simpl in *. unfold mbind, M_bind, lift in *.
    destruct (getitem config ff) as [v|]; [|discriminate]. cbv beta iota in *.
    destruct (py_eq_empty v); [discriminate|].
    destruct (as_str v) as [p|]; [|discriminate]. cbv beta iota in *.
    rewrite os_path_exists_run in Hok. rewrite os_path_exists_run.
    case_bool_decide; [discriminate|].
    case_bool_decide as Hex.
    { eexists _, _. split; [reflexivity|]. split; [reflexivity|]. right.
      eexists. split; [reflexivity|]. by exists p. }
    destruct (IH _ (World (files w') (trace w' ++ [EvExists p])%list) Hok)
      as (r & w'' & Hrun & Hf & Hr).
    exists r, w''. eauto.
Qed.

Lemma check_genic_config_rerun config0 config w wb w' :
  _check_genic_config config0 w = (Ok config, wb) ->
  exists r w'',
    _check_genic_config config0 w' = (r, w'') /\ files w'' = files w' /\
    (r = Ok config \/ exists e, r = Raise e /\ refusal (files w') e).
Proof.
  unfold _check_genic_config. destruct (validate config0) as [cfg failed].
  intros H.
  apply bind_ok_inv in H as (dtf & w1 & [Hdtf ->]%lift_ok_inv & H).
  apply bind_ok_inv in H as ([] & w2 & Hfiles & H).
  rewrite (bind_lift_run _ _ _ _ Hdtf).
  destruct (check_savefiles_rerun cfg (filekeys dtf) w w') as (r & w'' & Hrun & Hf & Hr).
  { by rewrite Hfiles. }
  destruct Hr as [-> | (e & -> & He)].
  2:{ eexists _, w''. split; [by apply bind_raise|]. split; [done|]. right. eauto. }
  rewrite (bind_run _ _ _ _ _ Hrun).
  apply bind_ok_inv in H as (mwdm & w3 & [Hmwdm ->]%lift_ok_inv & H).
  rewrite (bind_lift_run _ _ _ _ Hmwdm).
  apply bind_ok_inv in H as (warm & w3 & [Hwarm ->]%lift_ok_inv & H).
  rewrite (bind_lift_run _ _ _ _ Hwarm).
  destruct warm; [discriminate|].
  apply bind_ok_inv in H as (dtf' & w3 & [Hdtf' ->]%lift_ok_inv & H).
  rewrite (bind_lift_run _ _ _ _ Hdtf').
  apply bind_ok_inv in H as ([] & w3 & Hpol & H).
  injection H as <- <-.
  exists (Ok cfg), w''. split; [|eauto].
  destruct (py_eq_one dtf').
  - apply bind_ok_inv in Hpol as (ipr & w4 & [Hipr ->]%lift_ok_inv & Hpol).
    apply bind_ok_inv in Hpol as (rescale & w4 & [Hres ->]%lift_ok_inv & Hpol).
    destruct rescale; [discriminate|].
    erewrite bind_run; [reflexivity|].
    rewrite (bind_lift_run _ _ _ _ Hipr). rewrite (bind_lift_run _ _ _ _ Hres). reflexivity.
  - reflexivity.
Qed.

Lemma query_transfer_run powspec z w :
  query_transfer powspec z w
  = (get_transfer powspec z, World (files w) (trace w ++ [EvGetTransfer z])%list).
Proof. unfold query_transfer, mbind, M_bind, log, lift. simpl. by destruct (get_transfer _ _). Qed.

Lemma query_pklin_run powspec k z w :
  query_pklin powspec k z w
  = (get_pklin powspec k z, World (files w) (trace w ++ [EvGetPklin k z])%list).
Proof. unfold query_pklin, mbind, M_bind, log, lift. simpl. by destruct (get_pklin _ _ _). Qed.

Lemma write_file_ok_inv p c w w1 :
  write_file p c w = (Ok tt, w1) ->
  w1 = World (<[resolve p := c]> (files w)) (trace w ++ [EvWrite p])%list.
Proof. rewrite write_file_run. destruct (create_error _ _); [discriminate | by intros [= <-]]. Qed.

Lemma save_power_ok_inv p k pk w w1 :
  save_power p k pk w = (Ok tt, w1) ->
  w1 = World (<[resolve p := PowerFile (zip k pk)]> (files w)) (trace w ++ [EvWrite p])%list.
Proof.
  unfold save_power. destruct (_ =? _)%nat; [|discriminate]. apply write_file_ok_inv.
Qed.

Lemma extraz_tail_files config powspec sdir (extraz : option (list float)) w w1 r :
  match extraz with
  | Some reds => extraz_loop config powspec sdir reds
  | None => mret tt
  end w = (r, w1) -> files w ⊆ files w1.
Proof.
  destruct extraz as [reds|].
  - intros H. pose proof (extraz_loop_respects config powspec sdir reds w) as [Hf _].
    by rewrite H in Hf.
  - by intros [= _ <-].
Qed.

(** Outputs that were written once are refused the second time: by
    [NameError] where the transfer function is tested, by the [IOError] that
    names the file where the power spectrum is. *)
Lemma write_outputs_rerun config powspec sdir redshift extraz w w1 w' :
  write_outputs config powspec sdir redshift extraz w = (Ok tt, w1) ->
  files w' = files w1 ->
  exists e w'',
    write_outputs config powspec sdir redshift extraz w' = (Raise e, w'') /\
    files w'' = files w' /\
    (e = NameError "transferfile" \/ refusal (files w') e).
Proof.
  unfold write_outputs. intros H Hsame.
  apply bind_ok_inv in H as (z & w_ & [Hz ->]%lift_ok_inv & H).
  rewrite (bind_lift_run _ _ _ _ Hz).
  apply bind_ok_inv in H as (trans & w2 & Htr & H).
  rewrite query_transfer_run in Htr. injection Htr as Htr <-.
  erewrite bind_run; [|by rewrite query_transfer_run, Htr].
  apply bind_ok_inv in H as (dtf & w_ & [Hdtf ->]%lift_ok_inv & H).
  rewrite (bind_lift_run _ _ _ _ Hdtf).
  apply bind_ok_inv in H as ([] & w3 & Hblock & H).
  apply bind_ok_inv in H as (k & w_ & [Hk ->]%lift_ok_inv & H).
  apply bind_ok_inv in H as (pk_lin & w4 & Hpk & H).
  rewrite query_pklin_run in Hpk. injection Hpk as Hpk <-.
  apply bind_ok_inv in H as (sp & w_ & [Hsp ->]%lift_ok_inv & H).
  apply bind_ok_inv in H as (pname & w_ & [Hpname ->]%lift_ok_inv & H).
  apply bind_ok_inv in H as (e & w5 & Hex & H).
  rewrite os_path_exists_run in Hex. injection Hex as <- <-. cbn [files] in H.
  case_bool_decide as Hfree; [discriminate|].
  apply bind_ok_inv in H as ([] & w6 & Hsave & H).
  apply save_power_ok_inv in Hsave. subst w6. cbn [files] in H.
  apply extraz_tail_files in H. cbn [files] in H.
  assert (<[resolve (os_path_join sdir pname) := PowerFile (zip k pk_lin)]> (files w3)
          ⊆ files w1) as Hsub by exact H.
  assert (files w3 ⊆ files w1) as Hsub3.
  { etrans; [|exact Hsub]. apply insert_subseteq. by apply eq_None_not_Some. }
  destruct (py_eq_one dtf).
  - apply bind_ok_inv in Hblock as (tf & w_ & [Htf ->]%lift_ok_inv & Hblock).
    apply bind_ok_inv in Hblock as (tname & w_ & [Htname ->]%lift_ok_inv & Hblock).
    apply bind_ok_inv in Hblock as (e & w7 & Hex & Hblock).
    rewrite os_path_exists_run in Hex. injection Hex as <- <-.
    case_bool_decide as Htfree; [discriminate|].
    unfold save_transfer in Hblock. apply write_file_ok_inv in Hblock.
    subst w3. cbn [files] in *.
    eexists _, _. split.
    { erewrite bind_raise; [reflexivity|].
      rewrite (bind_lift_run _ _ _ _ Htf). rewrite (bind_lift_run _ _ _ _ Htname).
      erewrite bind_run; [|apply os_path_exists_run]. cbn [files].
      rewrite bool_decide_eq_true_2; [reflexivity|].
      rewrite Hsame. eapply lookup_weaken_is_Some; [|exact Hsub3].
      rewrite lookup_insert_eq. eauto. }
    split; [reflexivity | by left].
  - injection Hblock as <-.
    eexists _, _. split.
    { erewrite bind_run; [|reflexivity].
      rewrite (bind_lift_run _ _ _ _ Hk).
      erewrite bind_run; [|by rewrite query_pklin_run, Hpk].
      rewrite (bind_lift_run _ _ _ _ Hsp). rewrite (bind_lift_run _ _ _ _ Hpname).
      erewrite bind_run; [|apply os_path_exists_run]. cbn [files].
      rewrite bool_decide_eq_true_2; [reflexivity|].
      rewrite Hsame. eapply lookup_weaken_is_Some; [|exact Hsub].
      rewrite lookup_insert_eq. eauto. }
    split; [reflexivity|]. right. eexists. split; [reflexivity|].
    rewrite Hsame. eapply lookup_weaken_is_Some; [|exact Hsub].
    rewrite lookup_insert_eq. eauto.
Qed.

Lemma ConfigObj_run paramfile w :
  ConfigObj paramfile w
  = (match files w !! resolve paramfile with
     | Some (ParamFile lines) => Ok (VStr <$> lines)
     | Some Directory | None => Raise (IOError [not_found_message paramfile])
     | Some _ => Raise ConfigObjError
     end, World (files w) (trace w ++ [EvRead paramfile])%list).
Proof.
  unfold ConfigObj, mbind, M_bind, log, gets. simpl.
  by destruct (files w !! resolve paramfile) as [[]|].
Qed.

Lemma class_engine_run pre_params w :
  class_engine pre_params w
  = (ClassEngine pre_params, World (files w) (trace w ++ [EvEngine pre_params])%list).
Proof. unfold class_engine, mbind, M_bind, log, lift. simpl. by destruct (ClassEngine _). Qed.

(** A run that succeeded is refused when it is made again on the disk it
    left, whatever else happened to the trace: the startup check or the
    test before the power spectrum raise the [IOError] that names an
    existing file, or the test before the transfer function raises
    [NameError]; and the second run changes no file. *)
Theorem second_run_is_refused paramfile external_pk extraz verbose w w1 w' :
  make_class_power paramfile external_pk extraz verbose w = (Ok tt, w1) ->
  files w' = files w1 ->
  exists e w'',
    make_class_power paramfile external_pk extraz verbose w' = (Raise e, w'') /\
    files w'' = files w' /\
    (e = NameError "transferfile" \/ refusal (files w') e).
Proof.
  intros H Hsame.
  pose proof (make_class_power_never_overwrites paramfile external_pk extraz verbose w) as Hkeep.
  rewrite H in Hkeep. cbn [snd] in Hkeep.
  unfold make_class_power in *.
  apply bind_ok_inv in H as (config0 & wa & Hload & H).
  rewrite ConfigObj_run in Hload. injection Hload as Hload <-.
  destruct (files w !! resolve paramfile) as [content|] eqn:Hfile; [|discriminate].
  assert (files w' !! resolve paramfile = Some content) as Hfile'.
  { rewrite Hsame. by eapply lookup_weaken. }
  erewrite bind_run; [|by rewrite ConfigObj_run, Hfile', Hload].
  apply bind_ok_inv in H as (config & wb & Hcheck & H).
  destruct (check_genic_config_rerun config0 config _ _
              (World (files w') (trace w' ++ [EvRead paramfile])%list) Hcheck)
    as (r & w'' & Hrun & Hf & Hr).
  destruct Hr as [-> | (e & -> & He)].
  2:{ exists e, w''. split; [by apply bind_raise|]. split; [done|]. by right. }
  rewrite (bind_run _ _ _ _ _ Hrun).
  apply bind_ok_inv in H as ([config' gparams] & w_ & [Hbuild ->]%lift_ok_inv & H).
  rewrite (bind_lift_run _ _ _ _ Hbuild).
  apply bind_ok_inv in H as (redshift & w_ & [Hred ->]%lift_ok_inv & H).
  rewrite (bind_lift_run _ _ _ _ Hred).
  apply bind_ok_inv in H as (pre_params & w_ & [Hpre ->]%lift_ok_inv & H).
  rewrite (bind_lift_run _ _ _ _ Hpre).
  apply bind_ok_inv in H as (powspec & wc & Hengine & H).
  rewrite class_engine_run in Hengine. injection Hengine as Hengine <-.
  erewrite bind_run; [|by rewrite class_engine_run, Hengine].
  destruct (write_outputs_rerun _ _ _ _ _ _ _
              (World (files w'') (trace w'' ++ [EvEngine pre_params])%list) H)
    as (e & w3 & Hout & Hf3 & He).
  { cbn [files]. by rewrite Hf. }
  cbn [files] in *. exists e, w3. split; [exact Hout|].
  split; [by rewrite Hf3, Hf|]. by rewrite Hf in He.
Qed.
End Twice.

(** ** Runs that return *)

Section Returned.
Context {rt : Runtime}.

Lemma effects_refl w : effects w w [].
Proof. unfold effects. rewrite !app_nil_r. repeat split; [done|constructor]. Qed.

Lemma effects_trans w w1 w2 l1 l2 :
  effects w w1 l1 -> effects w1 w2 l2 -> effects w w2 (l1 ++ l2).
Proof.
  intros (Hp1 & Hw1 & He1 & Hf1 & Hn1) (Hp2 & Hw2 & He2 & Hf2 & Hn2).
  unfold effects. rewrite Hp2, Hp1, Hw2, Hw1, He2, He1, !app_assoc.
  repeat split; [by etrans|]. apply Forall_app. split.
  - eapply Forall_impl; [exact Hn1|]. intros p [Hnone Hsome]. split; [done|].
    by eapply lookup_weaken_is_Some.
  - eapply Forall_impl; [exact Hn2|]. intros p [Hnone Hsome]. split; [|done].
    by eapply lookup_weaken_None.
Qed.

Lemma effects_log w e :
  match e with EvExists _ | EvWrite _ | EvEngine _ => False | _ => True end ->
  effects w (World (files w) (trace w ++ [e])%list) [].
Proof.
  intros He. unfold effects, probed, written, engine_calls. cbn [files trace].
  rewrite !omap_app, !app_nil_r. destruct e; try done; simpl; rewrite !app_nil_r;
    repeat split; try done; constructor.
Qed.

Lemma effects_create w p c :
  files w !! resolve p = None ->
  effects w (World (<[resolve p := c]> (files w)) ((trace w ++ [EvExists p]) ++ [EvWrite p])%list)
    [p].
Proof.
  intros Hfree. unfold effects, probed, written, engine_calls. cbn [files trace].
  rewrite !omap_app. simpl. rewrite !app_nil_r.
  repeat split; [by apply insert_subseteq|].
  apply Forall_singleton. split; [done|]. rewrite lookup_insert_eq. eauto.
Qed.

Lemma yields_ret {A} (a : A) : yields (mret a : M A) [].
Proof. intros w a' w1 [= _ <-]. apply effects_refl. Qed.

Lemma yields_raise {A} e l : yields (raise e : M A) l.
Proof. intros w a w1 H. discriminate H. Qed.

Lemma yields_bind {A B} (m : M A) (k : A -> M B) l1 l2 :
  yields m l1 -> (forall a, yields (k a) l2) -> yields (m ≫= k) (l1 ++ l2).
Proof.
  intros Hm Hk w b w2 (a & w1 & H1 & H2)%bind_ok_inv.
  eapply effects_trans; [by eapply Hm | by eapply Hk].
Qed.

Lemma yields_bind_nil {A B} (m : M A) (k : A -> M B) l :
  yields m [] -> (forall a, yields (k a) l) -> yields (m ≫= k) l.
Proof. intros Hm Hk. by apply (yields_bind m k [] l). Qed.

Lemma yields_bind_lift {A B} (r : result A) (k : A -> M B) l :
  (forall a, r = Ok a -> yields (k a) l) -> yields (lift r ≫= k) l.
Proof.
  intros Hk w b w2 (a & w1 & [Hr ->]%lift_ok_inv & H2)%bind_ok_inv. by eapply Hk.
Qed.

Lemma yields_query_transfer powspec z : yields (query_transfer powspec z) [].
Proof.
  intros w a w1. rewrite query_transfer_run. intros [= _ <-]. by apply effects_log.
Qed.

Lemma yields_query_pklin powspec k z : yields (query_pklin powspec k z) [].
Proof.
  intros w a w1. rewrite query_pklin_run. intros [= _ <-]. by apply effects_log.
Qed.

Lemma creates_write_file p c : creates p (write_file p c).
Proof. intros w [] w1 ->%write_file_ok_inv. by exists c. Qed.

Lemma creates_save_power p k pk : creates p (save_power p k pk).
Proof. intros w [] w1 ->%save_power_ok_inv. by eexists. Qed.

Lemma yields_guarded_bind {A B} p x (m : M A) (k : A -> M B) l :
  creates p m -> (forall a, yields (k a) l) ->
  yields (e ← os_path_exists p; if (e : bool) then raise x else m ≫= k) (p :: l).
Proof.
  intros Hm Hk w b w2 (e & w1 & Hex & H)%bind_ok_inv.
  rewrite os_path_exists_run in Hex. injection Hex as <- <-.
  case_bool_decide as Hfree; [discriminate H|].
  apply bind_ok_inv in H as (a & w3 & H1 & H2).
  apply Hm in H1 as [c ->]. cbn [files trace] in *.
  change (p :: l) with ([p] ++ l)%list.
  eapply effects_trans; [|by eapply Hk].
  apply effects_create. by apply eq_None_not_Some.
Qed.

Lemma yields_guarded {A} p x (m : M A) :
  creates p m ->
  yields (e ← os_path_exists p; if (e : bool) then raise x else m) [p].
Proof.
  intros Hm w b w2 (e & w1 & Hex & H)%bind_ok_inv.
  rewrite os_path_exists_run in Hex. injection Hex as <- <-.
  case_bool_decide as Hfree; [discriminate H|].
  apply Hm in H as [c ->]. cbn [files trace] in *.
  apply effects_create. by apply eq_None_not_Some.
Qed.

Lemma filename_lookup config key name :
  config !! key = Some (VStr name) -> filename config key = name.
Proof. unfold filename. by intros ->. Qed.

Lemma extraz_loop_yields config powspec sdir reds :
  yields (extraz_loop config powspec sdir reds) (flat_map (extra_paths config sdir) reds).
Proof.
  induction reds as [|red reds IH]; [apply yields_ret|].
  cbn [extraz_loop flat_map].
  apply yields_bind_nil; [apply yields_query_transfer|]. intros trans.
  apply yields_bind_lift. intros tname (tf & Htf & ->)%suffixed_name.
  unfold extra_paths at 1. rewrite (filename_lookup _ _ _ Htf).
  cbn [app]. apply yields_guarded_bind; [apply creates_write_file|]. intros _.
  apply yields_bind_lift. intros k _.
  apply yields_bind_nil; [apply yields_query_pklin|]. intros pk_lin.
  apply yields_bind_lift. intros pname (pk & Hpk & ->)%suffixed_name.
  rewrite (filename_lookup _ _ _ Hpk).
  apply yields_guarded_bind; [apply creates_save_power|]. intros _. apply IH.
Qed.

Lemma getitem_lookup config key v : getitem config key = Ok v -> config !! key = Some v.
Proof. unfold getitem. destruct (config !! key); [by intros [= ->] | done]. Qed.

Lemma write_outputs_yields config powspec sdir redshift extraz :
  yields (write_outputs config powspec sdir redshift extraz) (output_paths config sdir extraz).
Proof.
  unfold write_outputs, output_paths, different_transfer_functions.
  apply yields_bind_lift. intros z _.
  apply yields_bind_nil; [apply yields_query_transfer|]. intros trans.
  apply yields_bind_lift. intros dtf Hdtf%getitem_lookup. rewrite Hdtf.
  apply yields_bind.
  { destruct (py_eq_one dtf); [|apply yields_ret].
    apply yields_bind_lift. intros tf Htf.
    apply yields_bind_lift. intros tname Htname.
    rewrite (filename_lookup _ _ _ (getitem_str _ _ _ _ Htf Htname)).
    apply yields_guarded. apply creates_write_file. }
  intros _. apply yields_bind_lift. intros k _.
  apply yields_bind_nil; [apply yields_query_pklin|]. intros pk_lin.
  apply yields_bind_lift. intros sp Hsp.
  apply yields_bind_lift. intros pname Hpname.
  rewrite (filename_lookup _ _ _ (getitem_str _ _ _ _ Hsp Hpname)).
  cbn [app]. apply yields_guarded_bind; [apply creates_save_power|]. intros _.
  destruct extraz as [reds|]; [apply extraz_loop_yields | apply yields_ret].
Qed.

(** The startup check, when it passes: it tested the names of the file keys
    as the configuration writes them, each of them set and free, and left
    the disk alone. *)
Lemma check_savefiles_ok config keys w w1 :
  check_savefiles config keys w = (Ok tt, w1) ->
  w1 = World (files w) (trace w ++ (EvExists <$> (filename config <$> keys)))%list /\
  Forall (fun key => filename config key <> "" /\
                     files w !! resolve (filename config key) = None) keys.
Proof.
  revert w. induction keys as [|ff rest IH]; intros w H.
  - injection H as <-. simpl. rewrite app_nil_r. split; [by destruct w | constructor].
  - simpl in H. apply bind_ok_inv in H as (v & w_ & [Hv ->]%lift_ok_inv & H).
    destruct (py_eq_empty v) eqn:He; [discriminate H|].
    apply bind_ok_inv in H as (p & w_ & [Hp ->]%lift_ok_inv & H).
    apply bind_ok_inv in H as (e & w2 & Hex & H).
    rewrite os_path_exists_run in Hex. injection Hex as <- <-.
    case_bool_decide as Hfree; [discriminate H|].
    apply IH in H as [-> Hrest]. cbn [files trace] in *.
    pose proof (filename_lookup _ _ _ (getitem_str _ _ _ _ Hv Hp)) as Hname.
    destruct v; try discriminate Hp. injection Hp as ->.
    simpl in He. case_decide as Hne; [discriminate He|].
    rewrite !fmap_cons, Hname. split; [by rewrite <- app_assoc|].
    constructor; [|done]. rewrite Hname. split; [done | by apply eq_None_not_Some].
Qed.

Lemma startup_paths_filekeys config dtf :
  config !! "DifferentTransferFunctions" = Some dtf ->
  filename config <$> filekeys dtf = startup_paths config.
Proof.
  intros Hdtf. unfold startup_paths, different_transfer_functions, filekeys.
  rewrite Hdtf. by destruct (py_eq_one dtf).
Qed.

Lemma check_genic_config_ok config0 config w w1 :
  _check_genic_config config0 w = (Ok config, w1) ->
  config = (validate config0).1 /\
  w1 = World (files w) (trace w ++ (EvExists <$> startup_paths config))%list /\
  Forall (fun p => p <> "" /\ files w !! resolve p = None) (startup_paths config).
Proof.
  unfold _check_genic_config. destruct (validate config0) as [cfg failed]. cbn [fst].
  intros H.
  apply bind_ok_inv in H as (dtf & w_ & [Hdtf%getitem_lookup ->]%lift_ok_inv & H).
  apply bind_ok_inv in H as ([] & w2 & Hfiles & H).
  apply check_savefiles_ok in Hfiles as [-> Hfree].
  apply bind_ok_inv in H as (mwdm & w_ & [_ ->]%lift_ok_inv & H).
  apply bind_ok_inv in H as (warm & w_ & [_ ->]%lift_ok_inv & H).
  destruct warm; [discriminate H|].
  apply bind_ok_inv in H as (dtf' & w_ & [_ ->]%lift_ok_inv & H).
  apply bind_ok_inv in H as ([] & w3 & Hpol & H).
  injection H as <- <-.
  assert (w3 = World (files w) (trace w ++ (EvExists <$> (filename cfg <$> filekeys dtf)))%list)
    as ->.
  { destruct (py_eq_one dtf'); [|by injection Hpol as <-].
    apply bind_ok_inv in Hpol as (ipr & w_ & [_ ->]%lift_ok_inv & Hpol).
    apply bind_ok_inv in Hpol as (rescale & w_ & [_ ->]%lift_ok_inv & Hpol).
    destruct rescale; [discriminate Hpol | by injection Hpol as <-]. }
  rewrite (startup_paths_filekeys _ _ Hdtf) in *.
  split; [done|]. split; [done|].
  rewrite <- (startup_paths_filekeys _ _ Hdtf). by apply Forall_fmap.
Qed.

(** The file names and the switch the output phase reads are those of the
    validated configuration: the mapper changes the baryon fraction only. *)
Lemma output_paths_agree config config' sdir extraz :
  (forall key, key <> "OmegaBaryon" -> config' !! key = config !! key) ->
  output_paths config' sdir extraz = output_paths config sdir extraz.
Proof.
  intros Hagree. unfold output_paths, extra_paths, different_transfer_functions, filename.
  by rewrite !Hagree.
Qed.

Lemma probed_startup fs t ps :
  probed (World fs (t ++ (EvExists <$> ps))%list) = (probed (World fs t) ++ ps)%list.
Proof.
  unfold probed. cbn [trace]. rewrite omap_app. f_equal.
  induction ps as [|p ps IH]; [done|]. simpl. f_equal. apply IH.
Qed.

(** A run that returns: what it read, what it handed to the engine, and
    what it tested and wrote. *)
Lemma make_class_power_ok paramfile external_pk extraz verbose w w1 :
  make_class_power paramfile external_pk extraz verbose w = (Ok tt, w1) ->
  exists lines config' gparams redshift pre_params,
    files w !! resolve paramfile = Some (ParamFile lines) /\
    let config := (validate (VStr <$> lines)).1 in
    let sdir := os_path_dirname paramfile in
    _build_cosmology_params config = Ok (config', gparams) /\
    target_redshift config' = Ok redshift /\
    solver_params config' gparams redshift external_pk extraz verbose = Ok pre_params /\
    engine_calls w1 = (engine_calls w ++ [pre_params])%list /\
    probed w1 = (probed w ++ startup_paths config ++ output_paths config sdir extraz)%list /\
    written w1 = (written w ++ output_paths config sdir extraz)%list /\
    files w ⊆ files w1 /\
    Forall (fun p => p <> "" /\ files w !! resolve p = None) (startup_paths config) /\
    Forall (fun p => files w !! resolve p = None /\ is_Some (files w1 !! resolve p))
      (output_paths config sdir extraz).
Proof.
  unfold make_class_power. intros H.
  apply bind_ok_inv in H as (config0 & wa & Hload & H).
  rewrite ConfigObj_run in Hload. injection Hload as Hload <-.
  destruct (files w !! resolve paramfile) as [[lines| | | |]|] eqn:Hfile; try discriminate Hload.
  injection Hload as <-.
  apply bind_ok_inv in H as (config & wb & Hcheck & H).
  apply check_genic_config_ok in Hcheck as (Hcfg & -> & Hfree).
  remember (startup_paths config) as sp eqn:Hsp0. cbn [files trace] in *.
  apply bind_ok_inv in H as ([config' gparams] & w_ & [Hbuild ->]%lift_ok_inv & H).
  apply bind_ok_inv in H as (redshift & w_ & [Hred ->]%lift_ok_inv & H).
  apply bind_ok_inv in H as (pre_params & w_ & [Hpre ->]%lift_ok_inv & H).
  apply bind_ok_inv in H as (powspec & wc & Hengine & H).
  rewrite class_engine_run in Hengine.
  destruct (ClassEngine pre_params) as [powspec'|] eqn:Hspec; [|discriminate Hengine].
  cbn [files trace] in Hengine. injection Hengine as Hps Hwc. subst powspec' wc.
  apply write_outputs_yields in H as (Hp & Hw & He & Hf & Hn).
  rewrite (output_paths_agree _ _ _ _ (build_cosmology_params_config _ _ _ Hbuild)) in Hp, Hw, Hn.
  cbn [files] in Hf, Hn.
  unfold engine_calls, written, probed in *. cbn [trace] in He, Hw, Hp.
  rewrite !omap_app in He. rewrite !omap_app in Hw. rewrite !omap_app in Hp.
  rewrite !omap_exists_nil in He by done. rewrite !omap_exists_nil in Hw by done.
  cbn [omap list_omap] in He, Hw, Hp.
  rewrite !app_nil_r in He. rewrite !app_nil_r in Hw. rewrite !app_nil_r in Hp.
  assert (omap (fun e => match e with EvExists p => Some p | _ => None end)
            (EvExists <$> sp) = sp) as Hsp.
  { clear. induction sp as [|p ps IH]; [done|]. simpl. f_equal. apply IH. }
  rewrite Hsp in Hp. rewrite <- !app_assoc in Hp. subst sp.
  exists lines, config', gparams, redshift, pre_params. cbv zeta. rewrite <- Hcfg.
  split; [done|]. split; [done|]. split; [done|]. split; [done|].
  split; [exact He|]. split; [exact Hp|].
  split; [exact Hw|]. split; [exact Hf|]. split; [exact Hfree | exact Hn].
Qed.

End Returned.



Section Engine.
Context {rt : Runtime}.












(** C10 (as amended).  In a run that returns, on a parameter file with
    values that are read as they are written: the startup check has tested
    the file names exactly as the configuration writes them, the output
    phase has tested and then written exactly those names joined to the
    directory of the parameter file (for every extra redshift with its
    suffix), and none of all these paths named a file when the run started,
    so each of them can block the run.  When the directory is not empty, a
    relative name and its joined path are different strings. *)
Theorem startup_check_and_writes_use_different_paths paramfile lines external_pk extraz
    verbose w w1 :
  files w !! resolve paramfile = Some (ParamFile lines) ->
  plain_lines lines = true ->
  make_class_power paramfile external_pk extraz verbose w = (Ok tt, w1) ->
  let config := (validate (VStr <$> lines)).1 in
  let sdir := os_path_dirname paramfile in
  probed w1 = (probed w ++ startup_paths config ++ output_paths config sdir extraz)%list /\
  written w1 = (written w ++ output_paths config sdir extraz)%list /\
  Forall (fun p => files w !! resolve p = None)
    (startup_paths config ++ output_paths config sdir extraz) /\
  (sdir <> "" ->
   forall name suffix, starts_with_slash name = false ->
     os_path_join sdir (name ++ suffix) <> name).
Proof.
  intros Hfile _ Hrun config sdir.
  apply make_class_power_ok in Hrun
    as (lines' & config' & gparams & redshift & pre_params & Hfile' & Hrun).
  rewrite Hfile in Hfile'. injection Hfile' as <-. cbv zeta in Hrun.
  destruct Hrun as (_ & _ & _ & _ & Hp & Hw & _ & Hfree & Hout).
  split; [exact Hp|]. split; [exact Hw|]. split.
  - apply Forall_app. split.
    + eapply Forall_impl; [exact Hfree|]. by intros p [_ ?].
    + eapply Forall_impl; [exact Hout|]. by intros p [? _].
  - intros Hdir name suffix Hrel. by apply os_path_join_differs.
Qed.

End Engine.

(** ** The theorems on the samples *)

Lemma unsupported_configuration_aborts_witness :
  let w := fresh_world warm_lines in
  let config := (@validate reference_runtime (VStr <$> warm_lines)).1 in
  let run := @make_class_power reference_runtime sample_paramfile None None false w in
  (exists e, run.1 = Raise e /\
     forall dtf, config !! "DifferentTransferFunctions" = Some dtf ->
       (forallb (@savefile_free reference_runtime (files w) config) (filekeys dtf) = true ->
          e = ValueError (policy_message config)) /\
       (forall before key after name,
          filekeys dtf = (before ++ key :: after)%list ->
          forallb (@savefile_free reference_runtime (files w) config) before = true ->
          config !! key = Some (VStr name) ->
          (name = "" -> e = IOError ["No savefile specified for "; key]) /\
          (name <> "" -> is_Some (files w !! @resolve reference_runtime name) ->
             e = IOError ["Refusing to write to existing file: "; name]))) /\
  files run.2 = files w /\
  engine_calls run.2 = engine_calls w /\
  written run.2 = written w.
Proof.
  apply (unsupported_configuration_aborts (rt := reference_runtime) sample_paramfile warm_lines
           None None false (fresh_world warm_lines)).
  - vm_compute; reflexivity.
  - vm_compute; reflexivity.
  - vm_compute; reflexivity.
Defined.

(** The sample with warm dark matter: the file names are set and free, and
    the run ends with the [ValueError] of the policy. *)
Lemma warm_config_raises_value_error :
  (@make_class_power reference_runtime sample_paramfile None None false
     (fresh_world warm_lines)).1
  = Raise (ValueError "Warm dark matter power spectrum cutoff not yet supported.").
Proof. vm_compute; reflexivity. Qed.

(** C7, the claim as stated fails.  With [MWDM_Therm = 1] and no
    [FileWithInputSpectrum] the check raises the [IOError] of the file check,
    not a [ValueError]. *)
Lemma warm_config_without_savefile_raises_ioerror :
  plain_lines warm_unnamed_lines = true /\
  unsupported (@validate reference_runtime (VStr <$> warm_unnamed_lines)).1 = true /\
  (@make_class_power reference_runtime sample_paramfile None None false
     (fresh_world warm_unnamed_lines)).1
  = Raise (IOError ["No savefile specified for "; "FileWithInputSpectrum"]).
Proof. repeat split; vm_compute; reflexivity. Qed.

Lemma max_wavenumber_of_box_witness :
  match solver_params sample_config ∅ (VFloat 99) None None false with
  | Ok p =>
      let boxmpc := (field sample_config "BoxSize" / MPC_in_cm
                     * field sample_config "UnitLength_in_cm")%float in
      exists ngrid,
        float_of_int (int_field sample_config "Ngrid") = Ok ngrid /\
        p !! "P_k_max_h/Mpc" = Some (VFloat (2 * math_pi / boxmpc * ngrid * 16)) /\
        (field sample_config "BoxSize" = 100000%float ->
         field sample_config "UnitLength_in_cm" = 3.085678e21%float ->
         int_field sample_config "Ngrid" = 256%Z ->
         boxmpc = 99.99999999999999%float /\
         p !! "P_k_max_h/Mpc" = Some (VFloat 257.3592701820759) /\
         (2 * math_pi / 100 * 256 * 16)%float = 257.3592701820759%float)
  | Raise _ => False
  end.
Proof.
  assert (is_ok (solver_params sample_config ∅ (VFloat 99) None None false) = true) as Hok
    by (vm_compute; reflexivity).
  destruct (solver_params sample_config ∅ (VFloat 99) None None false)
    as [p|e] eqn:Hsolve.
  - apply (max_wavenumber_of_box sample_config ∅ (VFloat 99)
             None None false p); [vm_compute; reflexivity | exact Hsolve].
  - discriminate Hok.
Defined.

(** C8, the claim as stated fails.  For a valid configuration with
    BoxSize = 13000, UnitLength_in_cm = 3.085678e21 and Ngrid = 256 the
    script divides first: its box side is 12.999999999999998 and the
    wavenumber it hands to the solver is 1979.6866937082762; the box side of
    the claim, [BoxSize * UnitLength_in_cm / 3.085678e24], is 13, and the
    wavenumber of the claim is 1979.6866937082757. *)
Lemma wavenumber_depends_on_the_order :
  schema_ok small_box_config = true /\
  field small_box_config "BoxSize" = 13000%float /\
  field small_box_config "UnitLength_in_cm" = 3.085678e21%float /\
  int_field small_box_config "Ngrid" = 256%Z /\
  box_in_mpc small_box_config = Ok 12.999999999999998%float /\
  match solver_params small_box_config ∅ (VFloat 99) None None false with
  | Ok p => p !! "P_k_max_h/Mpc"
  | Raise _ => None
  end = Some (VFloat 1979.6866937082762) /\
  (13000 * 3.085678e21 / 3.085678e24)%float = 13%float /\
  (2 * math_pi / (13000 * 3.085678e21 / 3.085678e24) * 256 * 16)%float
  = 1979.6866937082757%float /\
  (1979.6866937082762 =? 1979.6866937082757)%float = false.
Proof. repeat split; vm_compute; reflexivity. Qed.

(** For the sample of the claim the box side the script computes is
    99.99999999999999 and not 100, and the wavenumber is the same double
    all the same. *)
Lemma box_side_is_not_exactly_100 :
  schema_ok sample_config = true /\
  field sample_config "BoxSize" = 100000%float /\
  field sample_config "UnitLength_in_cm" = 3.085678e21%float /\
  box_in_mpc sample_config = Ok 99.99999999999999%float /\
  (99.99999999999999 =? 100)%float = false /\
  (100000 * 3.085678e21 / 3.085678e24 =? 100)%float = true.
Proof. repeat split; vm_compute; reflexivity. Qed.


(** C10 on the sample, with the extra redshift 49. *)
Lemma startup_check_and_writes_use_different_paths_witness :
  let w := fresh_world sample_lines in
  let run := @make_class_power reference_runtime sample_paramfile None (Some [49%float]) false w in
  let config := (@validate reference_runtime (VStr <$> sample_lines)).1 in
  let sdir := os_path_dirname sample_paramfile in
  run.1 = Ok tt /\
  probed run.2
  = (probed w ++ startup_paths config
       ++ @output_paths reference_runtime config sdir (Some [49%float]))%list /\
  written run.2
  = (written w ++ @output_paths reference_runtime config sdir (Some [49%float]))%list /\
  Forall (fun p => files w !! @resolve reference_runtime p = None)
    (startup_paths config ++ @output_paths reference_runtime config sdir (Some [49%float])) /\
  (sdir <> "" ->
   forall name suffix, starts_with_slash name = false ->
     os_path_join sdir (name ++ suffix) <> name).
Proof.
  intros w run config sdir.
  assert (run.1 = Ok tt) as Hok by (vm_compute; reflexivity).
  split; [exact Hok|]. subst run.
  destruct (@make_class_power reference_runtime sample_paramfile None (Some [49%float]) false w)
    as [r w1] eqn:Hrun.
  cbn [fst snd] in *. subst r.
  apply (startup_check_and_writes_use_different_paths (rt := reference_runtime)
           sample_paramfile sample_lines None (Some [49%float]) false w w1).
  - vm_compute; reflexivity.
  - vm_compute; reflexivity.
  - exact Hrun.
Defined.

(** The paths of that run. *)
Lemma sample_paths :
  let run := @make_class_power reference_runtime sample_paramfile None (Some [49%float]) false
               (fresh_world sample_lines) in
  probed run.2 = ["pk.dat"; "transfer.dat"; "run/transfer.dat"; "run/pk.dat";
                  "run/transfer.dat-49.0"; "run/pk.dat-49.0"] /\
  written run.2 = ["run/transfer.dat"; "run/pk.dat"; "run/transfer.dat-49.0"; "run/pk.dat-49.0"].
Proof. split; vm_compute; reflexivity. Qed.

(** C10, the claim as stated fails.  For [./paramfile.genic] the directory
    of the parameter file is [.], which is not empty, and the file names
    are relative; the startup check tests [pk.dat] and the run writes
    [./pk.dat], two strings that name one file.  So the file the first run
    wrote is the file that blocks the second run at startup, with the
    refusal that names it. *)
Lemma dot_directory_names_the_same_file :
  let first := @make_class_power reference_runtime dot_paramfile None None false dot_world in
  let second := @make_class_power reference_runtime dot_paramfile None None false
                  (World (files first.2) []) in
  plain_lines sample_lines = true /\
  os_path_dirname dot_paramfile = "." /\
  starts_with_slash "pk.dat" = false /\
  first.1 = Ok tt /\
  probed first.2 = ["pk.dat"; "transfer.dat"; "./transfer.dat"; "./pk.dat"] /\
  written first.2 = ["./transfer.dat"; "./pk.dat"] /\
  @resolve reference_runtime "./pk.dat" = @resolve reference_runtime "pk.dat" /\
  second.1 = Raise (IOError ["Refusing to write to existing file: "; "pk.dat"]) /\
  probed second.2 = ["pk.dat"].
Proof. repeat split; vm_compute; reflexivity. Qed.

(** The same across the keys: with the transfer-function file named
    [run/pk.dat], the path the startup check tests for that key is the path
    the run writes the power spectrum to. *)
Lemma startup_path_of_one_key_is_written_for_the_other :
  let run := @make_class_power reference_runtime sample_paramfile None None false crossed_world in
  plain_lines crossed_lines = true /\
  run.1 = Ok tt /\
  probed run.2 = ["pk.dat"; "run/pk.dat"; "run/run/pk.dat"; "run/pk.dat"] /\
  written run.2 = ["run/run/pk.dat"; "run/pk.dat"].
Proof. repeat split; vm_compute; reflexivity. Qed.

(** *** The sample runs *)

(** C1, on a failing input.  The parameter file of the sample with
    [wa_fld = abc]: validation marks [wa_fld], and the run goes on all the
    same, starts the engine and writes both tables. *)
Theorem invalid_field_is_not_reported :
  let run := @make_class_power reference_runtime sample_paramfile None None false
               (fresh_world malformed_lines) in
  (@validate reference_runtime (VStr <$> malformed_lines)).2 = ["wa_fld"] /\
  run.1 = Ok tt /\
  length (engine_calls run.2) = 1%nat /\
  written run.2 = ["run/transfer.dat"; "run/pk.dat"].
Proof. repeat split; vm_compute; reflexivity. Qed.

(** Without [Ngrid] validation marks the key; the mapper runs, and the run
    ends with [KeyError] where the wavenumber is computed. *)
Lemma missing_field_raises_in_the_mapping :
  let config := (@validate reference_runtime (VStr <$> unnamed_grid_lines)).1 in
  let run := @make_class_power reference_runtime sample_paramfile None None false
               (fresh_world unnamed_grid_lines) in
  (@validate reference_runtime (VStr <$> unnamed_grid_lines)).2 = ["Ngrid"] /\
  is_ok (@_build_cosmology_params reference_runtime config) = true /\
  run.1 = Raise (KeyError "Ngrid").
Proof. repeat split; vm_compute; reflexivity. Qed.

(** C2, on a failing input.  The sample run a second time, on the disk the
    first run left: the startup check tests [pk.dat] and [transfer.dat],
    which do not exist, the engine is started again, and the test of
    [run/transfer.dat] ends the run with [NameError], not with the
    [IOError] that names the file.  Nothing is written. *)
Theorem second_run_raises_name_error :
  let first := @make_class_power reference_runtime sample_paramfile None None false
                 (fresh_world sample_lines) in
  let second := @make_class_power reference_runtime sample_paramfile None None false
                  (World (files first.2) []) in
  first.1 = Ok tt /\
  written first.2 = ["run/transfer.dat"; "run/pk.dat"] /\
  probed second.2 = ["pk.dat"; "transfer.dat"; "run/transfer.dat"] /\
  second.1 = Raise (NameError "transferfile") /\
  length (engine_calls second.2) = 1%nat /\
  written second.2 = [].
Proof. repeat split; vm_compute; reflexivity. Qed.

(** The sample configuration is what the sample parameter file validates
    to, without a failed key. *)
Lemma sample_lines_validate :
  (@validate reference_runtime (VStr <$> sample_lines)).2 = [] /\
  schema_ok (@validate reference_runtime (VStr <$> sample_lines)).1 = true /\
  Forall (fun entry : string * check =>
            bool_decide (is_Some ((@validate reference_runtime (VStr <$> sample_lines)).1
                                    !! entry.1)) = true)
    GenICconfigspec.
Proof.
  split; [vm_compute; reflexivity|]. split; [vm_compute; reflexivity|].
  repeat constructor; vm_compute; reflexivity.
Qed.
